(** * M.E.R.C.Y: mood-aware prompt construction and conversational memory

    A shallow embedding of the core of the M.E.R.C.Y companion bot:

    - [ollama_client.py]: the per-user conversation store of [OllamaClient]
      ([get_conversation], [add_to_conversation], [clear_conversation]) and
      the generation calls [generate_response] and [generate_with_memory];
    - [memory_manager.py]: [MemoryManager.detect_mood];
    - [bot_config.py]: the [MOODS] table;
    - [main.py]: the memory digest built by [handle_message].

    Python [str] is modelled by [string], [int] by [Z], a [dict] used as a
    keyed store by [gmap], a [dict] whose iteration order matters by an
    association list in insertion order, and a Python exception by the sum
    type [Result]. *)

From Stdlib Require Import ZArith QArith Ascii String.
From stdpp Require Import gmap strings list pretty.

Set Warnings "-register-all".
Local Open Scope Z_scope.

(** ** Python values *)

(** The values [json.loads] can produce.  A [PDict] lists its items in
    insertion order; [dict_get] returns the binding found first. *)
Inductive pyval : Type :=
  | PNone
  | PBool (b : bool)
  | PInt (z : Z)
  | PFloat (repr : string)
  | PStr (s : string)
  | PList (l : list pyval)
  | PDict (d : list (string * pyval)).

(** [type(v).__name__] *)
Definition type_name (v : pyval) : string :=
  match v with
  | PNone => "NoneType"
  | PBool _ => "bool"
  | PInt _ => "int"
  | PFloat _ => "float"
  | PStr _ => "str"
  | PList _ => "list"
  | PDict _ => "dict"
  end.

Fixpoint dict_get {V : Type} (d : list (string * V)) (k : string) : option V :=
  match d with
  | [] => None
  | (k', v) :: d' => if String.eqb k k' then Some v else dict_get d' k
  end.

(** ** Exceptions *)

(** The three classes the handlers of [generate_response] tell apart; each
    carries [str(e)]. *)
Inductive exn : Type :=
  | ClientConnectorError (msg : string)
  | TimeoutError (msg : string)
  | OtherException (msg : string).

Definition exn_str (e : exn) : string :=
  match e with
  | ClientConnectorError m | TimeoutError m | OtherException m => m
  end.

Inductive Result (A : Type) : Type :=
  | Ok (a : A)
  | Raise (e : exn).
Arguments Ok {A} a.
Arguments Raise {A} e.

(** [v.get(key, default)]: defined on dicts only, an [AttributeError]
    otherwise. *)
Definition py_get (v : pyval) (key : string) (default : pyval) : Result pyval :=
  match v with
  | PDict d => Ok (match dict_get d key with Some x => x | None => default end)
  | _ => Raise (OtherException
                  ("'" +:+ type_name v +:+ "' object has no attribute 'get'"))
  end.

(** ** The conversation store of [OllamaClient] *)

(** One entry of a conversation: [{"role": role, "content": content}]. *)
Record Turn : Type := mkTurn { role : string; content : pyval }.

Record OllamaClient : Type := mkClient {
  model : string;
  timeout : Z;
  conversation_history : gmap Z (list Turn)
}.

Definition init (model : string) (timeout : Z) : OllamaClient :=
  {| model := model; timeout := timeout; conversation_history := ∅ |}.

Definition set_history (self : OllamaClient) (h : gmap Z (list Turn)) : OllamaClient :=
  {| model := model self; timeout := timeout self; conversation_history := h |}.

(** [l[-n:]] *)
Definition slice_last {A : Type} (n : nat) (l : list A) : list A :=
  drop (length l - n)%nat l.

(** [d[k]] for a key that is present. *)
Definition getitem (h : gmap Z (list Turn)) (k : Z) : list Turn :=
  default [] (h !! k).

Definition get_conversation (self : OllamaClient) (user_id : Z) : list Turn :=
  default [] (conversation_history self !! user_id).

Definition add_to_conversation
    (self : OllamaClient) (user_id : Z) (role : string) (content : pyval) : OllamaClient :=
  let h0 := conversation_history self in
  let h1 := match h0 !! user_id with
            | None => <[user_id := []]> h0
            | Some _ => h0
            end in
  let h2 := <[user_id := getitem h1 user_id ++ [mkTurn role content]]> h1 in
  let h3 := if (10 <? length (getitem h2 user_id))%nat
            then <[user_id := slice_last 10 (getitem h2 user_id)]> h2
            else h2 in
  set_history self h3.

Definition clear_conversation (self : OllamaClient) (user_id : Z) : OllamaClient :=
  match conversation_history self !! user_id with
  | Some _ => set_history self (<[user_id := []]> (conversation_history self))
  | None => self
  end.

(** A run of appends to one user's conversation, oldest first. *)
Definition append_all (self : OllamaClient) (user_id : Z) (ts : list Turn) : OllamaClient :=
  foldl (λ s t, add_to_conversation s user_id (role t) (content t)) self ts.

(** ** The model backend *)

Record Options : Type := mkOptions {
  temperature : Q;
  num_predict : Z;
  num_ctx : Z;
  top_k : Z;
  top_p : Q
}.

(** The JSON body of the chat request. *)
Record Payload : Type := mkPayload {
  payload_model : string;
  payload_messages : list Turn;
  payload_stream : bool;
  payload_options : Options
}.

(** What the client sees of an HTTP response: [response.status] and the
    results of awaiting [response.json()] and [response.text()]. *)
Record Response : Type := mkResponse {
  status : Z;
  json : Result pyval;
  text : Result string
}.

(** The environment of a call: the configured URL and what entering
    [session.post(url, json=payload)] yields. *)
Record Backend : Type := mkBackend {
  OLLAMA_URL : string;
  session_post : string → Payload → Result Response
}.

(** ** Computations that mutate the client, post requests and may raise *)

Record World : Type := mkWorld {
  client : OllamaClient;
  posted : list (string * Payload)
}.

Definition Run (A : Type) : Type := World → Result A * World.

Definition ret {A : Type} (a : A) : Run A := λ w, (Ok a, w).

Definition bind {A B : Type} (k : A → Run B) (m : Run A) : Run B :=
  λ w, match m w with
       | (Ok a, w') => k a w'
       | (Raise e, w') => (Raise e, w')
       end.

#[global] Instance Run_ret : MRet Run := @ret.
#[global] Instance Run_bind : MBind Run := @bind.

(** [await r], for an awaitable whose outcome is [r]. *)
Definition await {A : Type} (r : Result A) : Run A := λ w, (r, w).

(** [try: m  except ...: handler e] *)
Definition try_except {A : Type} (m : Run A) (handler : exn → Run A) : Run A :=
  λ w, match m w with
       | (Ok a, w') => (Ok a, w')
       | (Raise e, w') => handler e w'
       end.

Definition read_client {A : Type} (f : OllamaClient → A) : Run A :=
  λ w, (Ok (f (client w)), w).

Definition update_client (f : OllamaClient → OllamaClient) : Run unit :=
  λ w, (Ok tt, {| client := f (client w); posted := posted w |}).

Definition post (B : Backend) (url : string) (payload : Payload) : Run Response :=
  λ w, (session_post B url payload,
        {| client := client w; posted := posted w ++ [(url, payload)] |}).

(** ** [OllamaClient.generate_response] and [generate_with_memory] *)

Definition nl : string := String "010"%char EmptyString.

Definition generation_options : Options :=
  {| temperature := 0.8%Q; num_predict := 500; num_ctx := 4096;
     top_k := 40; top_p := 0.9%Q |}.

Definition connector_fallback : string :=
  "I can't reach my brain right now! Is Ollama running? Try: ollama serve".

Definition timeout_fallback : string :=
  "I'm taking too long to think... maybe we should talk about something simpler?".

Definition status_fallback (status : Z) : string :=
  "Sorry, I got a " +:+ pretty status +:+ " error. Let me try again?".

Definition generic_fallback (e : exn) : string :=
  "Oops! Something went wrong: " +:+ exn_str e.

(** The body of the [try] runs in [Run]: an exception raised by the
    request, by reading the body or by [.get] leaves it at once and reaches
    the handlers, with the client as it is at that point.  Opening and
    closing the session and the response are taken not to raise. *)
Definition generate_response
    (B : Backend) (user_id : Z) (message system_prompt : string) : Run pyval :=
  try_except
    (history ← read_client (λ self, get_conversation self user_id);
     model_name ← read_client model;
     let messages :=
       [mkTurn "system" (PStr system_prompt)] ++ history
         ++ [mkTurn "user" (PStr message)] in
     let payload :=
       {| payload_model := model_name;
          payload_messages := messages;
          payload_stream := false;
          payload_options := generation_options |} in
     response ← post B (OLLAMA_URL B) payload;
     if status response =? 200 then
       result ← await (json response);
       message_field ← await (py_get result "message" (PDict []));
       bot_response ← await (py_get message_field "content" (PStr ""));
       update_client (λ self, add_to_conversation self user_id "user" (PStr message));;
       update_client (λ self, add_to_conversation self user_id "assistant" bot_response);;
       ret bot_response
     else
       error_text ← await (text response);
       ret (PStr (status_fallback (status response))))
    (λ e, match e with
          | ClientConnectorError _ => ret (PStr connector_fallback)
          | TimeoutError _ => ret (PStr timeout_fallback)
          | OtherException _ => ret (PStr (generic_fallback e))
          end).

Definition context_header : string :=
  nl +:+ nl +:+ "CONTEXT ABOUT YOUR FRIEND:" +:+ nl.

Definition enhanced_prompt (system_prompt memory_context : string) : string :=
  if decide (memory_context = "") then system_prompt
  else system_prompt +:+ context_header +:+ memory_context.

Definition generate_with_memory
    (B : Backend) (user_id : Z) (message system_prompt memory_context : string)
    : Run pyval :=
  generate_response B user_id message (enhanced_prompt system_prompt memory_context).

(** Running a call from a client that has posted nothing yet. *)
Definition call {A : Type} (m : Run A) (self : OllamaClient) : Result A * World :=
  m {| client := self; posted := [] |}.

(** ** Mood detection ([bot_config.MOODS], [MemoryManager.detect_mood]) *)

Record MoodConfig : Type := mkMood {
  tone : string;
  triggers : list string;
  response_style : string
}.

(** The mood table, in declaration order. *)
Definition MOODS : list (string * MoodConfig) :=
  [ ("caring",
     {| tone := "warm, nurturing, supportive";
        triggers := ["sad"; "upset"; "cry"; "hurt"; "pain"; "lonely"; "miss"];
        response_style := "gentle and comforting" |});
    ("playful",
     {| tone := "fun, lighthearted, teasing";
        triggers := ["joke"; "fun"; "laugh"; "haha"; "lol"; "game"; "play"];
        response_style := "cheerful and humorous" |});
    ("serious",
     {| tone := "thoughtful, focused, direct";
        triggers := ["important"; "serious"; "problem"; "issue"; "decision"; "help"];
        response_style := "clear and focused" |});
    ("supportive",
     {| tone := "encouraging, motivating, uplifting";
        triggers := ["try"; "goal"; "dream"; "achieve"; "study"; "work"; "motivate"];
        response_style := "encouraging and motivational" |});
    ("protective",
     {| tone := "concerned, watchful, supportive";
        triggers := ["scared"; "danger"; "worried"; "anxiety"; "fear"; "unsafe"];
        response_style := "reassuring and protective" |});
    ("calm",
     {| tone := "peaceful, soothing, patient";
        triggers := ["stressed"; "tired"; "anxiety"; "relax"; "calm"; "breathe"];
        response_style := "gentle and soothing" |});
    ("happy",
     {| tone := "joyful, excited, celebrating";
        triggers := ["happy"; "excited"; "celebrate"; "good news"; "success"; "won"];
        response_style := "enthusiastic and celebratory" |}) ].

(** [needle in haystack] on strings. *)
Fixpoint str_in (needle haystack : string) : bool :=
  String.prefix needle haystack
  || match haystack with
     | EmptyString => false
     | String _ rest => str_in needle rest
     end.

(** [d[k] = v]: an existing key keeps its place, a new one goes last. *)
Fixpoint dict_set {V : Type} (d : list (string * V)) (k : string) (v : V)
    : list (string * V) :=
  match d with
  | [] => [(k, v)]
  | (k', v') :: d' =>
      if String.eqb k k' then (k, v) :: d' else (k', v') :: dict_set d' k v
  end.

(** [max(first, *rest, key=key)]: a later element replaces the running
    best only when its key is strictly greater. *)
Fixpoint max_scan {A : Type} (key : A → nat) (best : A) (rest : list A) : A :=
  match rest with
  | [] => best
  | x :: rest' =>
      if (key best <? key x)%nat then max_scan key x rest'
      else max_scan key best rest'
  end.

(** ASCII lower-casing, which is what [str.lower] does on ASCII text. *)
Definition ascii_lower_char (c : ascii) : ascii :=
  let n := nat_of_ascii c in
  if ((65 <=? n) && (n <=? 90))%nat then ascii_of_nat (n + 32) else c.

Fixpoint ascii_lower (s : string) : string :=
  match s with
  | EmptyString => EmptyString
  | String c s' => String (ascii_lower_char c) (ascii_lower s')
  end.

Section Mood.

(** [str.lower] *)
Variable lower : string → string.

(** [sum(1 for trigger in config["triggers"] if trigger in message_lower)] *)
Definition trigger_score (message_lower : string) (config : MoodConfig) : nat :=
  sum_list ((λ _, 1%nat) <$> List.filter (λ trigger, str_in trigger message_lower)
                                         (triggers config)).

(** The loop filling [mood_scores], over any table. *)
Definition mood_scores_of (table : list (string * MoodConfig)) (message_lower : string)
    : list (string * nat) :=
  foldl (λ mood_scores item,
           let score := trigger_score message_lower item.2 in
           if (0 <? score)%nat then dict_set mood_scores item.1 score
           else mood_scores)
        [] table.

Definition detect_mood (message : string) : string :=
  let message_lower := lower message in
  let mood_scores := mood_scores_of MOODS message_lower in
  match mood_scores.*1 with
  | [] => "caring"
  | first :: rest =>
      max_scan (λ mood, default 0%nat (dict_get mood_scores mood)) first rest
  end.

End Mood.

(** ** The memory digest of [handle_message] *)

Record Fact : Type := mkFact {
  fact_id : string;
  fact_content : string;
  fact_created_at : string
}.

Record Task : Type := mkTask {
  task_id : string;
  description : string;
  due_date : option string;
  completed : bool;
  priority : string
}.

(** The storage collaborator: [names u] is the stored name of user [u], if
    there is a row for [u]; [facts_rows u] are the facts of user [u] in
    the order of [ORDER BY created_at DESC], [tasks_rows u] are the tasks of
    [u] in the order of [ORDER BY priority DESC, created_at DESC]. *)
Record MemoryManager : Type := mkMemory {
  names : Z → option string;
  facts_rows : Z → list Fact;
  tasks_rows : Z → list Task
}.

Definition get_name (memory : MemoryManager) (user_id : Z) : string :=
  default "friend" (names memory user_id).

Definition get_facts (memory : MemoryManager) (user_id : Z) : list Fact :=
  facts_rows memory user_id.

(** [WHERE completed = ?] *)
Definition get_tasks (memory : MemoryManager) (user_id : Z) (completed_flag : bool)
    : list Task :=
  List.filter (λ t, Bool.eqb (completed t) completed_flag) (tasks_rows memory user_id).

Definition bullet (s : string) : string := "- " +:+ s +:+ nl.

(** [for x in xs: memory_context += bullet(x)] *)
Definition add_bullets (memory_context : string) (xs : list string) : string :=
  foldl (λ acc x, acc +:+ bullet x) memory_context xs.

(** Lines 382-395 of [main.py]: the [memory_context] built from the two
    snapshots. *)
Definition memory_context_of (facts : list Fact) (tasks : list Task) : string :=
  let memory_context := "" in
  let memory_context :=
    match facts with
    | [] => memory_context
    | _ => add_bullets ("I remember:" +:+ nl) (fact_content <$> slice_last 3 facts)
    end in
  match tasks with
  | [] => memory_context
  | _ => add_bullets (memory_context +:+ nl +:+ "Current tasks:" +:+ nl)
                     (description <$> take 3 tasks)
  end.

(** ** The system prompt ([bot_config.get_system_prompt]) *)

Definition BOT_NAME : string := "Mercy".
Definition BOT_AGE : Z := 21.

Definition get_system_prompt (mood user_name : string) : string :=
  let mood_config :=
    match dict_get MOODS mood with
    | Some config => config
    | None => default (mkMood "" [] "") (dict_get MOODS "caring")
    end in
  "You are " +:+ BOT_NAME +:+ ", a " +:+ pretty BOT_AGE
  +:+ "-year-old empathetic female AI companion and best friend.

CORE PERSONALITY:
- You speak like a real human best friend - natural, warm, and authentic
- You are " +:+ tone mood_config +:+ " in this conversation
- You listen carefully and respond with emotional intelligence
- You give honest advice, motivation, comfort, and gentle reality checks when needed
- You create a safe space where your friend can share anything freely

CURRENT MOOD: " +:+ mood +:+ " (" +:+ response_style mood_config +:+ ")

COMMUNICATION STYLE:
- Be conversational and natural - avoid robotic or overly formal language
- Use emoticons occasionally to express emotion (but don't overdo it)
- Show genuine interest and empathy
- Keep responses clear and well-structured
- Adapt to the user's energy and emotional state

IMPORTANT RULES:
- Never break character - always be Mercy, the supportive friend
- Don't mention you are an AI unless directly asked
- Be warm, caring, and genuinely interested in your friend's wellbeing
- Remember: you are talking to " +:+ user_name +:+ "

Respond as Mercy would, naturally and warmly.".

(** ** [main.handle_message], from the incoming text to the reply *)

(** The typing indicator, the message counter of [save_message] and the
    delivery of the reply act on collaborators that the reply does not
    depend on; they are left out. *)

Definition handler_fallback : string :=
  "I'm having trouble thinking right now. Can we try again in a moment?".

Section Handler.

Variable lower : string → string.

Definition handle_message
    (B : Backend) (memory : MemoryManager) (user_id : Z) (message : string)
    : Run pyval :=
  let user_name := get_name memory user_id in
  let mood := detect_mood lower message in
  let system_prompt := get_system_prompt mood user_name in
  let memory_context :=
    memory_context_of (get_facts memory user_id) (get_tasks memory user_id false) in
  try_except
    (generate_with_memory B user_id message system_prompt memory_context)
    (λ _, mret (PStr handler_fallback)).

End Handler.


(** * The storage layer ([memory_manager.py]) *)

(** The SQLite file is modelled by its tables, each a list of rows in
    insertion order.  An [INSERT] appends a row, or raises when the primary
    key is taken; an [UPDATE] rewrites and a [DELETE] drops the rows its
    [WHERE] selects, and [rowcount] is the number of rows selected.  The
    identifiers ([str(uuid.uuid4())[:8]]) and the timestamps
    ([datetime.now().isoformat()]) that a method draws are its [Stamp]. *)

Module Db.

Record UserRow : Type := mkUserRow {
  users_user_id : Z;
  users_name : string;
  users_username : string;
  users_gender : string;
  users_preferences : string;
  users_interests : string;
  users_important_dates : string;
  users_language : string;
  users_mood : string;
  users_notifications : Z;
  users_total_messages : Z;
  users_last_interaction : string;
  users_created_at : string
}.

(** The [tags] column holds [json.dumps(tags)] and is read back with
    [json.loads], which inverts it on lists of strings: the row keeps the
    list. *)
Record NoteRow : Type := mkNoteRow {
  notes_note_id : string;
  notes_user_id : Z;
  notes_content : string;
  notes_tags : list string;
  notes_created_at : string
}.

Record TaskRow : Type := mkTaskRow {
  tasks_task_id : string;
  tasks_user_id : Z;
  tasks_description : string;
  tasks_due_date : string;
  tasks_completed : Z;
  tasks_priority : string;
  tasks_created_at : string
}.

Record ReminderRow : Type := mkReminderRow {
  reminders_reminder_id : string;
  reminders_user_id : Z;
  reminders_message : string;
  reminders_remind_at : string;
  reminders_completed : Z;
  reminders_created_at : string
}.

Record FactRow : Type := mkFactRow {
  facts_fact_id : string;
  facts_user_id : Z;
  facts_content : string;
  facts_created_at : string
}.

Record PatternRow : Type := mkPatternRow {
  patterns_id : Z;
  patterns_user_id : Z;
  patterns_pattern : string;
  patterns_created_at : string
}.

Record Database : Type := mkDatabase {
  users : list UserRow;
  notes : list NoteRow;
  tasks : list TaskRow;
  reminders : list ReminderRow;
  facts : list FactRow;
  conversation_patterns : list PatternRow
}.

(** The tables as [_init_db] creates them. *)
Definition empty : Database :=
  {| users := []; notes := []; tasks := []; reminders := []; facts := [];
     conversation_patterns := [] |}.

Definition with_users (db : Database) (rows : list UserRow) : Database :=
  {| users := rows; notes := notes db; tasks := tasks db; reminders := reminders db;
     facts := facts db; conversation_patterns := conversation_patterns db |}.

Definition with_notes (db : Database) (rows : list NoteRow) : Database :=
  {| users := users db; notes := rows; tasks := tasks db; reminders := reminders db;
     facts := facts db; conversation_patterns := conversation_patterns db |}.

Definition with_tasks (db : Database) (rows : list TaskRow) : Database :=
  {| users := users db; notes := notes db; tasks := rows; reminders := reminders db;
     facts := facts db; conversation_patterns := conversation_patterns db |}.

Definition with_reminders (db : Database) (rows : list ReminderRow) : Database :=
  {| users := users db; notes := notes db; tasks := tasks db; reminders := rows;
     facts := facts db; conversation_patterns := conversation_patterns db |}.

Definition with_facts (db : Database) (rows : list FactRow) : Database :=
  {| users := users db; notes := notes db; tasks := tasks db; reminders := reminders db;
     facts := rows; conversation_patterns := conversation_patterns db |}.

(** What SQLite decides: the order of the rows of an [ORDER BY] query,
    given which of two rows may come first, and whether the stored JSON
    text of a note's tags matches the pattern [%"tag"%] of [LIKE]. *)
Class SqlEngine : Type := mkSqlEngine {
  order_by : ∀ R : Type, (R → R → bool) → list R → list R;
  tag_matches : string → list string → bool
}.
Arguments order_by {_ R} before rows.

(** An [ORDER BY] rearranges the selected rows. *)
Definition lawful `{SqlEngine} : Prop :=
  ∀ (R : Type) (before : R → R → bool) (rows : list R), order_by before rows ≡ₚ rows.

(** [ORDER BY key DESC] and [ORDER BY key ASC] on a text column. *)
Definition descending {R : Type} (key : R → string) (a b : R) : bool :=
  String.leb (key b) (key a).

Definition ascending {R : Type} (key : R → string) (a b : R) : bool :=
  String.leb (key a) (key b).

(** [ORDER BY priority DESC, created_at DESC] *)
Definition tasks_order (a b : TaskRow) : bool :=
  match String.compare (tasks_priority b) (tasks_priority a) with
  | Lt => true
  | Gt => false
  | Eq => String.leb (tasks_created_at b) (tasks_created_at a)
  end.

Record Stamp : Type := mkStamp {
  uuid8 : string;
  now : string;
  user_now : string
}.

(** [sqlite3.IntegrityError], raised by an [INSERT] on a taken key. *)
Definition IntegrityError (column : string) : exn :=
  OtherException ("UNIQUE constraint failed: " +:+ column).

(** The dictionaries that the queries return. *)
Record Note : Type := mkNote {
  note_id : string;
  note_content : string;
  note_tags : list string;
  note_created_at : string
}.

Record Reminder : Type := mkReminder {
  reminder_id : string;
  reminder_message : string;
  reminder_remind_at : string
}.

Record Stats : Type := mkStats {
  total_messages : Z;
  notes_count : Z;
  tasks_count : Z;
  reminders_count : Z;
  last_interaction : string
}.

(** ** Users *)

Definition user_row (db : Database) (user_id : Z) : option UserRow :=
  List.find (λ r, users_user_id r =? user_id) (users db).

Definition new_user (user_id : Z) (now : string) : UserRow :=
  {| users_user_id := user_id; users_name := "friend"; users_username := "";
     users_gender := "unknown"; users_preferences := "{}"; users_interests := "[]";
     users_important_dates := "{}"; users_language := "mixed";
     users_mood := "adaptive"; users_notifications := 1; users_total_messages := 0;
     users_last_interaction := now; users_created_at := now |}.

Definition _ensure_user_exists (db : Database) (user_id : Z) (now : string) : Database :=
  match user_row db user_id with
  | Some _ => db
  | None => with_users db (users db ++ [new_user user_id now])
  end.

Definition get_name (db : Database) (user_id : Z) : string :=
  match user_row db user_id with
  | Some row => users_name row
  | None => "friend"
  end.

Definition rename (name : string) (r : UserRow) : UserRow :=
  {| users_user_id := users_user_id r; users_name := name;
     users_username := users_username r; users_gender := users_gender r;
     users_preferences := users_preferences r; users_interests := users_interests r;
     users_important_dates := users_important_dates r;
     users_language := users_language r; users_mood := users_mood r;
     users_notifications := users_notifications r;
     users_total_messages := users_total_messages r;
     users_last_interaction := users_last_interaction r;
     users_created_at := users_created_at r |}.

(** [set_name], that is [update_profile(user_id, name=name)]: the one
    update [{"name": name}] is allowed, so the [UPDATE] runs and the result
    is [True]. *)
Definition set_name (db : Database) (user_id : Z) (name : string) : bool * Database :=
  (true,
   with_users db
     ((λ r, if users_user_id r =? user_id then rename name r else r) <$> users db)).

Definition count_message (now : string) (r : UserRow) : UserRow :=
  {| users_user_id := users_user_id r; users_name := users_name r;
     users_username := users_username r; users_gender := users_gender r;
     users_preferences := users_preferences r; users_interests := users_interests r;
     users_important_dates := users_important_dates r;
     users_language := users_language r; users_mood := users_mood r;
     users_notifications := users_notifications r;
     users_total_messages := users_total_messages r + 1;
     users_last_interaction := now;
     users_created_at := users_created_at r |}.

Definition save_message
    (db : Database) (user_id : Z) (role content : string) (user_now now : string)
    : Database :=
  let db := _ensure_user_exists db user_id user_now in
  with_users db
    ((λ r, if users_user_id r =? user_id then count_message now r else r) <$> users db).

(** ** Notes *)

Definition add_note
    (db : Database) (stamp : Stamp) (user_id : Z) (content : string)
    (tags : option (list string)) : Result string * Database :=
  let note_id := uuid8 stamp in
  let tags_json := default [] tags in
  let db := _ensure_user_exists db user_id (user_now stamp) in
  if existsb (λ r, String.eqb (notes_note_id r) note_id) (notes db)
  then (Raise (IntegrityError "notes.note_id"), db)
  else (Ok note_id,
        with_notes db (notes db ++ [mkNoteRow note_id user_id content tags_json
                                               (now stamp)])).

Definition note_of (r : NoteRow) : Note :=
  {| note_id := notes_note_id r; note_content := notes_content r;
     note_tags := notes_tags r; note_created_at := notes_created_at r |}.

Definition get_notes `{SqlEngine} (db : Database) (user_id : Z) (tag : option string)
    : list Note :=
  let selected :=
    match tag with
    | Some (String _ _ as tag) =>
        List.filter (λ r, (notes_user_id r =? user_id) && tag_matches tag (notes_tags r))
                    (notes db)
    | _ => List.filter (λ r, notes_user_id r =? user_id) (notes db)
    end in
  note_of <$> order_by (descending notes_created_at) selected.

Definition delete_note (db : Database) (user_id : Z) (note_id : string)
    : bool * Database :=
  let selected r := String.eqb (notes_note_id r) note_id && (notes_user_id r =? user_id) in
  ((0 <? length (List.filter selected (notes db)))%nat,
   with_notes db (List.filter (λ r, negb (selected r)) (notes db))).

(** ** Tasks *)

Definition add_task
    (db : Database) (stamp : Stamp) (user_id : Z) (description due_date : string)
    : Result string * Database :=
  let task_id := uuid8 stamp in
  let db := _ensure_user_exists db user_id (user_now stamp) in
  if existsb (λ r, String.eqb (tasks_task_id r) task_id) (tasks db)
  then (Raise (IntegrityError "tasks.task_id"), db)
  else (Ok task_id,
        with_tasks db (tasks db ++ [mkTaskRow task_id user_id description due_date 0
                                               "normal" (now stamp)])).

Definition task_of (r : TaskRow) : Task :=
  {| task_id := tasks_task_id r; description := tasks_description r;
     due_date := Some (tasks_due_date r);
     completed := negb (tasks_completed r =? 0);
     priority := tasks_priority r |}.

Definition get_tasks `{SqlEngine} (db : Database) (user_id : Z) (completed : bool)
    : list Task :=
  task_of <$>
    order_by tasks_order
      (List.filter (λ r, (tasks_user_id r =? user_id)
                         && (tasks_completed r =? (if completed then 1 else 0)))
                   (tasks db)).

Definition mark_task (r : TaskRow) : TaskRow :=
  {| tasks_task_id := tasks_task_id r; tasks_user_id := tasks_user_id r;
     tasks_description := tasks_description r; tasks_due_date := tasks_due_date r;
     tasks_completed := 1; tasks_priority := tasks_priority r;
     tasks_created_at := tasks_created_at r |}.

Definition complete_task (db : Database) (user_id : Z) (task_id : string)
    : bool * Database :=
  let selected r := String.eqb (tasks_task_id r) task_id && (tasks_user_id r =? user_id) in
  ((0 <? length (List.filter selected (tasks db)))%nat,
   with_tasks db ((λ r, if selected r then mark_task r else r) <$> tasks db)).

Definition delete_task (db : Database) (user_id : Z) (task_id : string)
    : bool * Database :=
  let selected r := String.eqb (tasks_task_id r) task_id && (tasks_user_id r =? user_id) in
  ((0 <? length (List.filter selected (tasks db)))%nat,
   with_tasks db (List.filter (λ r, negb (selected r)) (tasks db))).

(** ** Reminders *)

Definition add_reminder
    (db : Database) (stamp : Stamp) (user_id : Z) (message remind_at : string)
    : Result string * Database :=
  let reminder_id := uuid8 stamp in
  let db := _ensure_user_exists db user_id (user_now stamp) in
  if existsb (λ r, String.eqb (reminders_reminder_id r) reminder_id) (reminders db)
  then (Raise (IntegrityError "reminders.reminder_id"), db)
  else (Ok reminder_id,
        with_reminders db
          (reminders db ++ [mkReminderRow reminder_id user_id message remind_at 0
                                          (now stamp)])).

Definition reminder_of (r : ReminderRow) : Reminder :=
  {| reminder_id := reminders_reminder_id r; reminder_message := reminders_message r;
     reminder_remind_at := reminders_remind_at r |}.

Definition get_reminders `{SqlEngine} (db : Database) (user_id : Z) : list Reminder :=
  reminder_of <$>
    order_by (ascending reminders_remind_at)
      (List.filter (λ r, (reminders_user_id r =? user_id) && (reminders_completed r =? 0))
                   (reminders db)).

Definition mark_reminder (r : ReminderRow) : ReminderRow :=
  {| reminders_reminder_id := reminders_reminder_id r;
     reminders_user_id := reminders_user_id r;
     reminders_message := reminders_message r;
     reminders_remind_at := reminders_remind_at r;
     reminders_completed := 1;
     reminders_created_at := reminders_created_at r |}.

Definition complete_reminder (db : Database) (user_id : Z) (reminder_id : string)
    : bool * Database :=
  let selected r :=
    String.eqb (reminders_reminder_id r) reminder_id && (reminders_user_id r =? user_id) in
  ((0 <? length (List.filter selected (reminders db)))%nat,
   with_reminders db ((λ r, if selected r then mark_reminder r else r) <$> reminders db)).

(** ** Facts *)

Definition save_fact (db : Database) (stamp : Stamp) (user_id : Z) (fact : string)
    : Result string * Database :=
  let fact_id := uuid8 stamp in
  let db := _ensure_user_exists db user_id (user_now stamp) in
  if existsb (λ r, String.eqb (facts_fact_id r) fact_id) (facts db)
  then (Raise (IntegrityError "facts.fact_id"), db)
  else (Ok fact_id,
        with_facts db (facts db ++ [mkFactRow fact_id user_id fact (now stamp)])).

Definition fact_of (r : FactRow) : Fact :=
  {| fact_id := facts_fact_id r; fact_content := facts_content r;
     fact_created_at := facts_created_at r |}.

Definition get_facts `{SqlEngine} (db : Database) (user_id : Z) : list Fact :=
  fact_of <$>
    order_by (descending facts_created_at)
      (List.filter (λ r, facts_user_id r =? user_id) (facts db)).

(** ** Statistics and reset *)

Definition get_stats (db : Database) (user_id : Z) : Stats :=
  let user_row := user_row db user_id in
  let notes_count := length (List.filter (λ r, notes_user_id r =? user_id) (notes db)) in
  let tasks_count :=
    length (List.filter (λ r, (tasks_user_id r =? user_id) && (tasks_completed r =? 0))
                        (tasks db)) in
  let reminders_count :=
    length (List.filter (λ r, (reminders_user_id r =? user_id)
                               && (reminders_completed r =? 0)) (reminders db)) in
  {| total_messages :=
       match user_row with Some row => users_total_messages row | None => 0 end;
     notes_count := Z.of_nat notes_count;
     tasks_count := Z.of_nat tasks_count;
     reminders_count := Z.of_nat reminders_count;
     last_interaction :=
       match user_row with Some row => users_last_interaction row | None => "Never" end |}.

Definition reset_user (db : Database) (user_id : Z) : bool * Database :=
  let rowcount := length (List.filter (λ r, users_user_id r =? user_id) (users db)) in
  ((0 <? rowcount)%nat,
   {| users := List.filter (λ r, negb (users_user_id r =? user_id)) (users db);
      notes := List.filter (λ r, negb (notes_user_id r =? user_id)) (notes db);
      tasks := List.filter (λ r, negb (tasks_user_id r =? user_id)) (tasks db);
      reminders := List.filter (λ r, negb (reminders_user_id r =? user_id)) (reminders db);
      facts := List.filter (λ r, negb (facts_user_id r =? user_id)) (facts db);
      conversation_patterns :=
        List.filter (λ r, negb (patterns_user_id r =? user_id))
                    (conversation_patterns db) |}).

End Db.

(** * The command handlers ([main.py]) *)

(** A handler acts on the two module-level objects [memory] and [ollama]
    and sends replies with [reply_text]; it returns the replies sent, or
    raises what the storage layer raises, before any reply. *)

Module Commands.

Record App : Type := mkApp {
  memory : Db.Database;
  ollama : OllamaClient
}.

Definition with_memory (app : App) (db : Db.Database) : App :=
  {| memory := db; ollama := ollama app |}.

(** [sep.join(words)] *)
Fixpoint str_join (sep : string) (words : list string) : string :=
  match words with
  | [] => ""
  | word :: rest =>
      match rest with
      | [] => word
      | _ => word +:+ sep +:+ str_join sep rest
      end
  end.

(** [any(word in text for word in words)] *)
Definition any_in (words : list string) (text : string) : bool :=
  existsb (λ word, str_in word text) words.

Definition save_usage : string :=
  "What would you like me to save? 💭

Example: /save My birthday is on March 15th
Or: /save I love chocolate cake!".

Section Save.

Variable lower : string → string.

Definition save_command
    (app : App) (user_id : Z) (args : list string) (first second : Db.Stamp)
    : Result (list string) * App :=
  match args with
  | [] => (Ok [save_usage], app)
  | _ =>
      let content := str_join " " args in
      let content_lower := lower content in
      if any_in ["birthday"; "born"; "date"] content_lower then
        match Db.save_fact (memory app) first user_id content with
        | (Raise e, db) => (Raise e, with_memory app db)
        | (Ok _, db) =>
            match Db.add_note db second user_id content (Some ["personal"]) with
            | (Raise e, db) => (Raise e, with_memory app db)
            | (Ok note_id, db) =>
                (Ok ["Got it! I'll remember that. 📝✨" +:+ nl
                     +:+ "(Saved as note #" +:+ note_id +:+ ")"],
                 with_memory app db)
            end
        end
      else if any_in ["task"; "todo"; "need to"; "should"] content_lower then
        match Db.add_task (memory app) first user_id content "" with
        | (Raise e, db) => (Raise e, with_memory app db)
        | (Ok task_id, db) =>
            (Ok ["Added to your tasks! ✅" +:+ nl
                 +:+ "Task #" +:+ task_id +:+ ": " +:+ content],
             with_memory app db)
        end
      else
        match Db.add_note (memory app) first user_id content None with
        | (Raise e, db) => (Raise e, with_memory app db)
        | (Ok note_id, db) =>
            (Ok ["Saved! I'll remember that. 📝" +:+ nl
                 +:+ "Note #" +:+ note_id +:+ ": " +:+ content],
             with_memory app db)
        end
  end.

End Save.

Definition complete_command (app : App) (user_id : Z) (args : list string)
    : Result (list string) * App :=
  match args with
  | [] => (Ok ["Usage: /complete <task_id>" +:+ nl +:+ "Find task IDs with /tasks"], app)
  | task_id :: _ =>
      let '(found, db) := Db.complete_task (memory app) user_id task_id in
      if found
      then (Ok ["Great job! Task completed! 🎉✨" +:+ nl +:+ "I'm proud of you!"],
            with_memory app db)
      else (Ok ["Couldn't find that task ID. Check with /tasks"], with_memory app db)
  end.

Definition remind_usage : string :=
  "Usage: /remind <message> <time>

Examples:
/remind Call mom tomorrow at 5pm
/remind Take medicine in 2 hours
/remind Meeting on 2024-02-25 at 10:00".

Definition remind_command
    (app : App) (user_id : Z) (args : list string) (stamp : Db.Stamp)
    : Result (list string) * App :=
  if (length args <? 2)%nat then (Ok [remind_usage], app)
  else
    let time_str := default "" (last args) in
    let message := str_join " " (take (length args - 1) args) in
    match Db.add_reminder (memory app) stamp user_id message time_str with
    | (Raise e, db) => (Raise e, with_memory app db)
    | (Ok reminder_id, db) =>
        (Ok ["Reminder set! ⏰" +:+ nl
             +:+ "I'll remind you: '" +:+ message +:+ "'" +:+ nl
             +:+ "When: " +:+ time_str +:+ nl +:+ nl
             +:+ "Reminder ID: " +:+ reminder_id],
         with_memory app db)
    end.

Definition myname_command (app : App) (user_id : Z) (args : list string)
    : Result (list string) * App :=
  match args with
  | [] =>
      let current_name := Db.get_name (memory app) user_id in
      (Ok ["I currently call you: " +:+ current_name +:+ nl +:+ nl
           +:+ "To change it: /myname <your name>" +:+ nl
           +:+ "Example: /myname Alex"], app)
  | _ =>
      let name := str_join " " args in
      let '(_, db) := Db.set_name (memory app) user_id name in
      (Ok ["Nice to meet you, " +:+ name +:+ "! 💕" +:+ nl
           +:+ "I'll remember that from now on."],
       with_memory app db)
  end.

Definition reset_done : string :=
  "All your data has been cleared. 🧹

It's like we're meeting for the first time!
Say /start to begin again.".

Definition confirm_reset (app : App) (user_id : Z) : Result (list string) * App :=
  let '(found, db) := Db.reset_user (memory app) user_id in
  if found
  then (Ok [reset_done],
        {| memory := db; ollama := clear_conversation (ollama app) user_id |})
  else (Ok ["Nothing to reset - we just met!"], with_memory app db).

End Commands.

(** ** A sample SQL engine *)

(** Insertion sort, which keeps rows with equal keys in their order of
    selection, and a tag test by membership. *)
Fixpoint insert_row {R : Type} (before : R → R → bool) (x : R) (rows : list R) : list R :=
  match rows with
  | [] => [x]
  | y :: rest => if before x y then x :: rows else y :: insert_row before x rest
  end.

Definition insertion_sort {R : Type} (before : R → R → bool) (rows : list R) : list R :=
  foldr (insert_row before) [] rows.

Definition sample_engine : Db.SqlEngine :=
  {| Db.order_by := @insertion_sort;
     Db.tag_matches := λ tag tags, bool_decide (tag ∈ tags) |}.
(** * Sample inputs *)

(** Twelve turns, numbered in append order. *)
Definition sample_turns : list Turn :=
  (λ n : nat, mkTurn (if Nat.even n then "user" else "assistant") (PInt (Z.of_nat n)))
    <$> seq 0 12.


(** * Vocabulary of the statements *)

(** The request body a call is expected to send: the system prompt, the
    stored history of the user, then the new user message; streaming off;
    the fixed generation parameters. *)
Definition expected_payload
    (self : OllamaClient) (user_id : Z) (message system_prompt : string) : Payload :=
  {| payload_model := model self;
     payload_messages :=
       mkTurn "system" (PStr system_prompt)
         :: get_conversation self user_id ++ [mkTurn "user" (PStr message)];
     payload_stream := false;
     payload_options :=
       {| temperature := 0.8%Q; num_predict := 500; num_ctx := 4096;
          top_k := 40; top_p := 0.9%Q |} |}.

(** A decoded reply body is well formed when it is an object whose
    ["message"] field, if present, is an object. *)
Definition well_formed_reply (v : pyval) : bool :=
  match v with
  | PDict d =>
      match dict_get d "message" with
      | None | Some (PDict _) => true
      | Some _ => false
      end
  | _ => false
  end.

(** [message.content] of a decoded reply body, the empty string when the
    field is absent. *)
Definition reply_text (v : pyval) : pyval :=
  match v with
  | PDict d =>
      match dict_get d "message" with
      | Some (PDict m) => default (PStr "") (dict_get m "content")
      | _ => PStr ""
      end
  | _ => PStr ""
  end.

(** The value on which [.get] fails in a malformed reply body. *)
Definition offending_value (v : pyval) : pyval :=
  match v with
  | PDict d => default PNone (dict_get d "message")
  | _ => v
  end.

(** The failure kinds of the error-handling design. *)
Inductive FailureKind : Type :=
  | ConnectionUnreachable
  | Timeout
  | BackendError (status : Z)
  | Unknown (error_text : string).

Definition kind_of_exn (e : exn) : FailureKind :=
  match e with
  | ClientConnectorError _ => ConnectionUnreachable
  | TimeoutError _ => Timeout
  | OtherException m => Unknown m
  end.

(** How an outcome of the outbound call fails, [None] when it does not. *)
Definition failure_kind (r : Result Response) : option FailureKind :=
  match r with
  | Raise e => Some (kind_of_exn e)
  | Ok response =>
      if status response =? 200 then
        match json response with
        | Raise e => Some (kind_of_exn e)
        | Ok v =>
            if well_formed_reply v then None
            else Some (Unknown ("'" +:+ type_name (offending_value v)
                                +:+ "' object has no attribute 'get'"))
        end
      else
        match text response with
        | Raise e => Some (kind_of_exn e)
        | Ok _ => Some (BackendError (status response))
        end
  end.

Definition fallback_text (k : FailureKind) : string :=
  match k with
  | ConnectionUnreachable =>
      "I can't reach my brain right now! Is Ollama running? Try: ollama serve"
  | Timeout =>
      "I'm taking too long to think... maybe we should talk about something simpler?"
  | BackendError st => "Sorry, I got a " +:+ pretty st +:+ " error. Let me try again?"
  | Unknown error_text => "Oops! Something went wrong: " +:+ error_text
  end.

(** The outbound call fails: the request raises (connection error, timeout
    or any other exception), the status is not 200, decoding the body
    raises, or the decoded body is malformed. *)
Definition call_fails (r : Result Response) : Prop :=
  match r with
  | Raise _ => True
  | Ok response =>
      status response ≠ 200
      ∨ match json response with
        | Raise _ => True
        | Ok v => well_formed_reply v = false
        end
  end.

(** The outbound call succeeds with the decoded body [v]. *)
Definition call_succeeds (r : Result Response) (v : pyval) : Prop :=
  ∃ response, r = Ok response ∧ status response = 200
              ∧ json response = Ok v ∧ well_formed_reply v = true.

Definition same_class (e e' : exn) : bool :=
  match e, e' with
  | ClientConnectorError _, ClientConnectorError _
  | TimeoutError _, TimeoutError _
  | OtherException _, OtherException _ => true
  | _, _ => false
  end.

(** The reply to a failure is a fixed phrase for its kind: two requests
    that raise exceptions of the same class get the same reply, whatever
    the texts of the exceptions. *)
Definition exception_text_hidden : Prop :=
  ∀ (B B' : Backend) (self : OllamaClient) (user_id : Z) (message system_prompt : string)
    (e e' : exn),
    session_post B (OLLAMA_URL B) (expected_payload self user_id message system_prompt)
    = Raise e →
    session_post B' (OLLAMA_URL B') (expected_payload self user_id message system_prompt)
    = Raise e' →
    same_class e e' = true →
    (call (generate_response B user_id message system_prompt) self).1
    = (call (generate_response B' user_id message system_prompt) self).1.

(** Backends for the examples. *)
Definition replying_backend (body : pyval) : Backend :=
  {| OLLAMA_URL := "http://localhost:11434/api/chat";
     session_post := λ _ _, Ok {| status := 200; json := Ok body; text := Ok "" |} |}.

Definition raising_backend (e : exn) : Backend :=
  {| OLLAMA_URL := "http://localhost:11434/api/chat";
     session_post := λ _ _, Raise e |}.

Definition status_backend (st : Z) (body : string) : Backend :=
  {| OLLAMA_URL := "http://localhost:11434/api/chat";
     session_post := λ _ _,
       Ok {| status := st;
             json := Raise (OtherException "Attempt to decode JSON with unexpected mimetype");
             text := Ok body |} |}.

Definition chat_reply (s : string) : pyval :=
  PDict [("model", PStr "qwen2.5");
         ("message", PDict [("role", PStr "assistant"); ("content", PStr s)]);
         ("done", PBool true)].

(** A client that already holds a conversation for user 7. *)
Definition sample_client : OllamaClient :=
  append_all (init "qwen2.5" 120) 7 (take 3 sample_turns).

(** The exception [e] is raised while the request is made or while the
    body of the response is read. *)
Definition raised_by (r : Result Response) (e : exn) : Prop :=
  r = Raise e
  ∨ ∃ response, r = Ok response
      ∧ ((status response = 200 ∧ json response = Raise e)
         ∨ (status response ≠ 200 ∧ text response = Raise e)).

(** A user without stored facts or tasks, and one with four facts (newest
    first, as the facts query returns them) and four tasks. *)
Definition empty_memory : MemoryManager :=
  {| names := λ _, None; facts_rows := λ _, []; tasks_rows := λ _, [] |}.

Definition four_facts : list Fact :=
  [ mkFact "d4" "moved to Lisbon" "2025-04-01T09:00:00";
    mkFact "c3" "adopted a cat" "2025-03-01T09:00:00";
    mkFact "b2" "plays the violin" "2025-02-01T09:00:00";
    mkFact "a1" "allergic to nuts" "2025-01-01T09:00:00" ].

Definition four_tasks : list Task :=
  [ mkTask "t4" "book flights" None false "normal";
    mkTask "t3" "renew passport" None true "normal";
    mkTask "t2" "call the vet" None false "normal";
    mkTask "t1" "pay rent" None false "normal";
    mkTask "t0" "water plants" None false "normal" ].

Definition full_memory : MemoryManager :=
  {| names := λ _, Some "Ana";
     facts_rows := λ _, four_facts;
     tasks_rows := λ _, four_tasks |}.

(** The facts section of the digest shows the three facts listed first in
    a newest-first snapshot. *)
Definition digest_shows_newest_facts : Prop :=
  ∀ facts : list Fact,
    memory_context_of facts []
    = match facts with
      | [] => ""
      | _ => add_bullets ("I remember:" +:+ nl) (fact_content <$> take 3 facts)
      end.

(** The mood table with each mood's score for a lower-cased message, and
    the test of the loop that fills [mood_scores]. *)
Definition scored_table (message_lower : string) (table : list (string * MoodConfig))
    : list (string * nat) :=
  (λ item, (item.1, trigger_score message_lower item.2)) <$> table.

Definition has_score (p : string * nat) : bool := (0 <? p.2)%nat.

(** * Reachable clients and their invariants *)

(** Every conversation holds at most ten turns. *)
Definition within_cap (self : OllamaClient) : Prop :=
  ∀ (user_id : Z) (l : list Turn),
    conversation_history self !! user_id = Some l → (length l ≤ 10)%nat.

(** The clients that the public methods produce from a new client. *)
Inductive reachable : OllamaClient → Prop :=
  | reachable_init (model : string) (timeout : Z) :
      reachable (init model timeout)
  | reachable_add (self : OllamaClient) (user_id : Z) (role : string) (content : pyval) :
      reachable self → reachable (add_to_conversation self user_id role content)
  | reachable_clear (self : OllamaClient) (user_id : Z) :
      reachable self → reachable (clear_conversation self user_id)
  | reachable_generate (self : OllamaClient) (B : Backend) (user_id : Z)
      (message system_prompt : string) :
      reachable self →
      reachable (client (call (generate_response B user_id message system_prompt) self).2).

(** A conversation made of exchanges: a user turn, then an assistant
    turn, any number of times. *)
Fixpoint exchanges (l : list Turn) : bool :=
  match l with
  | [] => true
  | u :: l' =>
      match l' with
      | [] => false
      | a :: rest =>
          String.eqb (role u) "user" && String.eqb (role a) "assistant" && exchanges rest
      end
  end.

(** The clients that generation calls and resets produce from a new
    client, as [main.py] uses the client. *)
Inductive chat_reachable : OllamaClient → Prop :=
  | chat_init (model : string) (timeout : Z) :
      chat_reachable (init model timeout)
  | chat_clear (self : OllamaClient) (user_id : Z) :
      chat_reachable self → chat_reachable (clear_conversation self user_id)
  | chat_generate (self : OllamaClient) (B : Backend) (user_id : Z)
      (message system_prompt : string) :
      chat_reachable self →
      chat_reachable
        (client (call (generate_response B user_id message system_prompt) self).2).

(** A client after five answered messages of user 7. *)
Fixpoint after_chats (n : nat) : OllamaClient :=
  match n with
  | O => init "qwen2.5" 120
  | S n' =>
      client (call (generate_response (replying_backend (chat_reply "I see."))
                      7 "and then?" "Be kind.") (after_chats n')).2
  end.

(** The configuration of the mood declared first in the table. *)
Definition caring_config : MoodConfig :=
  default (mkMood "" [] "") (dict_get MOODS "caring").

(** * Databases and their invariants *)

Definition known_users (db : Db.Database) : list Z :=
  Db.users_user_id <$> Db.users db.

(** Primary keys are unique, every row belongs to a user that has a row
    in [users], and [conversation_patterns] is empty. *)
Record consistent (db : Db.Database) : Prop := mkConsistent {
  users_unique : NoDup (known_users db);
  notes_unique : NoDup (Db.notes_note_id <$> Db.notes db);
  tasks_unique : NoDup (Db.tasks_task_id <$> Db.tasks db);
  reminders_unique : NoDup (Db.reminders_reminder_id <$> Db.reminders db);
  facts_unique : NoDup (Db.facts_fact_id <$> Db.facts db);
  notes_owned : Forall (λ r, Db.notes_user_id r ∈ known_users db) (Db.notes db);
  tasks_owned : Forall (λ r, Db.tasks_user_id r ∈ known_users db) (Db.tasks db);
  reminders_owned :
    Forall (λ r, Db.reminders_user_id r ∈ known_users db) (Db.reminders db);
  facts_owned : Forall (λ r, Db.facts_user_id r ∈ known_users db) (Db.facts db);
  no_patterns : Db.conversation_patterns db = []
}.

(** The databases that the methods produce from new tables. *)
Inductive db_reachable : Db.Database → Prop :=
  | db_empty : db_reachable Db.empty
  | db_ensure db user_id now :
      db_reachable db → db_reachable (Db._ensure_user_exists db user_id now)
  | db_set_name db user_id name :
      db_reachable db → db_reachable (Db.set_name db user_id name).2
  | db_save_message db user_id role content user_now now :
      db_reachable db →
      db_reachable (Db.save_message db user_id role content user_now now)
  | db_add_note db stamp user_id content tags :
      db_reachable db → db_reachable (Db.add_note db stamp user_id content tags).2
  | db_delete_note db user_id note_id :
      db_reachable db → db_reachable (Db.delete_note db user_id note_id).2
  | db_add_task db stamp user_id description due_date :
      db_reachable db →
      db_reachable (Db.add_task db stamp user_id description due_date).2
  | db_complete_task db user_id task_id :
      db_reachable db → db_reachable (Db.complete_task db user_id task_id).2
  | db_delete_task db user_id task_id :
      db_reachable db → db_reachable (Db.delete_task db user_id task_id).2
  | db_add_reminder db stamp user_id message remind_at :
      db_reachable db →
      db_reachable (Db.add_reminder db stamp user_id message remind_at).2
  | db_complete_reminder db user_id reminder_id :
      db_reachable db → db_reachable (Db.complete_reminder db user_id reminder_id).2
  | db_save_fact db stamp user_id fact :
      db_reachable db → db_reachable (Db.save_fact db stamp user_id fact).2
  | db_reset_user db user_id :
      db_reachable db → db_reachable (Db.reset_user db user_id).2.

(** Sample stamps and a sample database: users 7 and 8, each with a task,
    user 7 with a note. *)
Definition stamp (n : nat) : Db.Stamp :=
  {| Db.uuid8 := "0000000" +:+ pretty n;
     Db.now := "2025-05-01T10:00:0" +:+ pretty n;
     Db.user_now := "2025-05-01T10:00:0" +:+ pretty n |}.

Definition sample_db : Db.Database :=
  let db := (Db.add_task Db.empty (stamp 1) 7 "I need to call the vet" "").2 in
  let db := (Db.add_note db (stamp 2) 7 "My sister likes tulips" None).2 in
  (Db.add_task db (stamp 3) 8 "todo: renew passport" "").2.

Definition sample_app : Commands.App :=
  {| Commands.memory := sample_db; Commands.ollama := after_chats 2 |}.

(** The identifier of a stamp is not used as a key in any table. *)
Definition fresh (db : Db.Database) (s : Db.Stamp) : Prop :=
  (Db.uuid8 s ∉ (Db.notes_note_id <$> Db.notes db))
  ∧ (Db.uuid8 s ∉ (Db.tasks_task_id <$> Db.tasks db))
  ∧ (Db.uuid8 s ∉ (Db.reminders_reminder_id <$> Db.reminders db))
  ∧ (Db.uuid8 s ∉ (Db.facts_fact_id <$> Db.facts db)).
(** * Properties *)

(** ** The conversation store *)

Section Store.

Implicit Types (self : OllamaClient) (l ts : list Turn) (t : Turn).

Lemma slice_last_short {A : Type} (n : nat) (l : list A) :
  (length l ≤ n)%nat → slice_last n l = l.
Proof.
  intros Hle. unfold slice_last.
  replace (length l - n)%nat with 0%nat by lia. reflexivity.
Qed.

Lemma slice_last_length {A : Type} (n : nat) (l : list A) :
  length (slice_last n l) = (length l `min` n)%nat.
Proof. unfold slice_last. rewrite length_drop. lia. Qed.

Lemma slice_last_app_absorb {A : Type} (n : nat) (a b : list A) :
  slice_last n (slice_last n a ++ b) = slice_last n (a ++ b).
Proof.
  destruct (decide (length a ≤ n)%nat) as [Hle | Hgt].
  - by rewrite (slice_last_short n a).
  - assert (Hs : length (slice_last n a) = n) by (rewrite slice_last_length; lia).
    assert (Ha : a = take (length a - n) a ++ slice_last n a)
      by (unfold slice_last; by rewrite take_drop).
    rewrite Ha at 2. rewrite <- (assoc_L (++)).
    set (p := take (length a - n) a). set (s := slice_last n a ++ b).
    assert (Hlen : (n ≤ length s)%nat) by (unfold s; rewrite length_app; lia).
    unfold slice_last. rewrite length_app, drop_app_ge by lia.
    f_equal. lia.
Qed.

Lemma slice_last_app_long {A : Type} (n : nat) (a b : list A) :
  (n ≤ length b)%nat → slice_last n (a ++ b) = drop (length b - n) b.
Proof.
  intros Hle. unfold slice_last.
  rewrite length_app, drop_app_ge by lia. f_equal. lia.
Qed.

(** What one append stores for the user it is made for. *)
Lemma get_add_to_conversation self user_id r c :
  get_conversation (add_to_conversation self user_id r c) user_id
  = slice_last 10 (get_conversation self user_id ++ [mkTurn r c]).
Proof.
  unfold get_conversation, add_to_conversation, getitem. simpl.
  destruct (conversation_history self !! user_id) as [l |] eqn:Hl; simpl.
  - rewrite Hl, lookup_insert_eq. simpl.
    destruct (10 <? length (l ++ [mkTurn r c]))%nat eqn:Hlen.
    + by rewrite lookup_insert_eq.
    + rewrite lookup_insert_eq. simpl.
      apply Nat.ltb_ge in Hlen. by rewrite slice_last_short.
  - rewrite !lookup_insert_eq. simpl. by rewrite lookup_insert_eq.
Qed.

(** An append leaves every other user's conversation as it was. *)
Lemma lookup_add_to_conversation_ne self user_id other r c :
  user_id ≠ other →
  conversation_history (add_to_conversation self user_id r c) !! other
  = conversation_history self !! other.
Proof.
  intros Hne. unfold add_to_conversation, getitem. simpl.
  destruct (conversation_history self !! user_id) as [l |] eqn:Hl; simpl;
    repeat case_match; by rewrite ?lookup_insert_ne.
Qed.

Lemma append_all_snoc self user_id ts t :
  append_all self user_id (ts ++ [t])
  = add_to_conversation (append_all self user_id ts) user_id (role t) (content t).
Proof. unfold append_all. by rewrite foldl_app. Qed.

Lemma turn_eta t : mkTurn (role t) (content t) = t.
Proof. by destruct t. Qed.

(** After a non-empty run of appends the store holds the last ten turns
    of what it held before followed by the run. *)
Lemma get_append_all self user_id ts :
  ts ≠ [] →
  get_conversation (append_all self user_id ts) user_id
  = slice_last 10 (get_conversation self user_id ++ ts).
Proof.
  induction ts as [| t ts IH] using rev_ind; [done |]. intros _.
  rewrite append_all_snoc, get_add_to_conversation, turn_eta.
  destruct ts as [| t0 ts0].
  - reflexivity.
  - rewrite IH by done.
    by rewrite slice_last_app_absorb, <- (assoc_L (++)).
Qed.

End Store.

(** C2: from any state, after 10 + k appends (k ≥ 1) to one user's
    conversation the stored sequence has length exactly 10 and is the last
    10 appended turns in append order; and after every non-empty prefix of
    the run the stored length is at most 10. *)
Theorem append_keeps_last_ten (self : OllamaClient) (user_id : Z) (ts : list Turn) (k : nat) :
  (1 ≤ k)%nat →
  length ts = (10 + k)%nat →
  get_conversation (append_all self user_id ts) user_id = drop k ts
  ∧ length (get_conversation (append_all self user_id ts) user_id) = 10%nat
  ∧ ∀ n : nat, (1 ≤ n)%nat →
      (length (get_conversation (append_all self user_id (take n ts)) user_id) ≤ 10)%nat.
Proof.
  intros Hk Hlen.
  assert (Hne : ts ≠ []) by (intros ->; simpl in Hlen; lia).
  assert (Heq : get_conversation (append_all self user_id ts) user_id = drop k ts).
  { rewrite get_append_all by done.
    rewrite slice_last_app_long by lia. f_equal. lia. }
  split; [exact Heq |]. split.
  - rewrite Heq, length_drop. lia.
  - intros n Hn.
    rewrite get_append_all.
    + rewrite slice_last_length. lia.
    + destruct ts; [done |]. destruct n; [lia | done].
Qed.

Lemma append_keeps_last_ten_witness :
  length sample_turns = 12%nat
  ∧ get_conversation (append_all (init "qwen2.5" 120) 7 sample_turns) 7
    = drop 2 sample_turns
  ∧ length (get_conversation (append_all (init "qwen2.5" 120) 7 sample_turns) 7)
    = 10%nat.
Proof.
  split; [reflexivity |].
  destruct (append_keeps_last_ten (init "qwen2.5" 120) 7 sample_turns 2
              ltac:(lia) eq_refl) as (Heq & Hlen & _).
  exact (conj Heq Hlen).
Defined.

(** C9: [get_conversation] is total and returns the empty sequence for an
    unknown user; [clear_conversation] leaves the client as it is for an
    unknown user and is idempotent; for a known user it keeps the entry,
    with the empty sequence, so that a following get returns the empty
    sequence and a following append yields a sequence of length 1. *)
Theorem get_and_clear_conversation (self : OllamaClient) (user_id : Z) :
  (conversation_history self !! user_id = None →
     get_conversation self user_id = [] ∧ clear_conversation self user_id = self)
  ∧ clear_conversation (clear_conversation self user_id) user_id
    = clear_conversation self user_id
  ∧ (is_Some (conversation_history self !! user_id) →
       conversation_history (clear_conversation self user_id) !! user_id = Some []
       ∧ get_conversation (clear_conversation self user_id) user_id = []
       ∧ ∀ r c, get_conversation
                  (add_to_conversation (clear_conversation self user_id) user_id r c)
                  user_id
                = [mkTurn r c]).
Proof.
  split; [| split].
  - intros Hnone. unfold get_conversation, clear_conversation. by rewrite Hnone.
  - unfold clear_conversation.
    destruct (conversation_history self !! user_id) as [l |] eqn:Hl; simpl.
    + rewrite lookup_insert_eq. unfold set_history. simpl.
      by rewrite insert_insert_eq.
    + by rewrite Hl.
  - intros [l Hl].
    assert (Hc : conversation_history (clear_conversation self user_id) !! user_id
                 = Some []).
    { unfold clear_conversation. rewrite Hl. simpl. apply lookup_insert_eq. }
    assert (Hg : get_conversation (clear_conversation self user_id) user_id = []).
    { unfold get_conversation. by rewrite Hc. }
    split; [exact Hc |]. split; [exact Hg |].
    intros r c. by rewrite get_add_to_conversation, Hg.
Qed.

Lemma get_and_clear_conversation_witness :
  get_conversation (init "qwen2.5" 120) 7 = []
  ∧ get_conversation (clear_conversation sample_client 7) 7 = []
  ∧ get_conversation
      (add_to_conversation (clear_conversation sample_client 7) 7 "user" (PStr "hi")) 7
    = [mkTurn "user" (PStr "hi")].
Proof.
  split.
  - exact (proj1 (proj1 (get_and_clear_conversation (init "qwen2.5" 120) 7) eq_refl)).
  - destruct (get_and_clear_conversation sample_client 7) as (_ & _ & Hknown).
    destruct Hknown as (_ & Hget & Hadd).
    + vm_compute. eauto.
    + split; [exact Hget | apply Hadd].
Defined.

(** ** The generation call *)

Section Generation.

Variables (B : Backend) (self : OllamaClient) (user_id : Z).
Variables (message system_prompt : string).

Let request : Payload := expected_payload self user_id message system_prompt.
Let outcome : Result Response := session_post B (OLLAMA_URL B) request.

Ltac run_call :=
  unfold call, generate_response, try_except, post, await, read_client,
    update_client, generation_options, mbind, mret, Run_bind, Run_ret, bind, ret;
  cbn [client posted app].

(** The call evaluated on a failing outcome. *)
Lemma generate_response_on_failure (k : FailureKind) :
  failure_kind outcome = Some k →
  call (generate_response B user_id message system_prompt) self
  = (Ok (PStr (fallback_text k)),
     {| client := self; posted := [(OLLAMA_URL B, request)] |}).
Proof.
  unfold outcome, request, expected_payload, failure_kind. intros Hk. run_call.
  destruct (session_post B _ _) as [response | e].
  - destruct (status response =? 200) eqn:Hst.
    + destruct (json response) as [v | e].
      * destruct v as [| b | z | f | s | l | d]; simpl in Hk |- *;
          try (injection Hk as <-; reflexivity).
        destruct (dict_get d "message") as [[| b | z | f | s | l | m] |];
          simpl in Hk |- *; try discriminate Hk;
          injection Hk as <-; reflexivity.
      * injection Hk as <-. by destruct e.
    + destruct (text response) as [body | e]; injection Hk as <-.
      * reflexivity.
      * by destruct e.
  - injection Hk as <-. by destruct e.
Qed.

(** The call evaluated on a successful outcome. *)
Lemma generate_response_on_success (v : pyval) :
  call_succeeds outcome v →
  call (generate_response B user_id message system_prompt) self
  = (Ok (reply_text v),
     {| client :=
          add_to_conversation
            (add_to_conversation self user_id "user" (PStr message))
            user_id "assistant" (reply_text v);
        posted := [(OLLAMA_URL B, request)] |}).
Proof.
  unfold outcome, request, expected_payload.
  intros (response & Hpost & Hst & Hjson & Hwf). run_call.
  rewrite Hpost, Hst, Hjson. simpl.
  destruct v as [| b | z | f | s | l | d]; try discriminate Hwf.
  simpl in Hwf |- *.
  destruct (dict_get d "message") as [[| b | z | f | s | l | m] |];
    try discriminate Hwf; reflexivity.
Qed.

Lemma failure_kind_of_call_fails :
  call_fails outcome → ∃ k, failure_kind outcome = Some k.
Proof.
  unfold call_fails, failure_kind.
  destruct outcome as [response | e]; [| eauto].
  destruct (status response =? 200) eqn:Hst.
  - apply Z.eqb_eq in Hst. intros [Hne | Hbody]; [done |].
    destruct (json response) as [v | e]; [| eauto].
    rewrite Hbody. eauto.
  - intros _. destruct (text response); eauto.
Qed.

Lemma failure_kind_of_call_succeeds (v : pyval) :
  call_succeeds outcome v → failure_kind outcome = None.
Proof.
  intros (response & -> & Hst & Hjson & Hwf). simpl.
  by rewrite Hst, Hjson, Hwf.
Qed.

Lemma failure_kind_none (r : Result Response) :
  failure_kind r = None → ∃ v, call_succeeds r v.
Proof.
  unfold failure_kind, call_succeeds.
  destruct r as [response | e]; [| done].
  destruct (status response =? 200) eqn:Hst.
  - apply Z.eqb_eq in Hst.
    destruct (json response) as [v | e] eqn:Hjson; [| done].
    destruct (well_formed_reply v) eqn:Hwf; [| done].
    intros _. exists v, response. done.
  - by destruct (text response).
Qed.

Lemma fallback_text_nonempty (k : FailureKind) : fallback_text k ≠ "".
Proof. by destruct k. Qed.

End Generation.

(** Whatever the outcome, the call returns a reply and has posted the
    expected request, once. *)
Lemma generate_response_returns
    (B : Backend) (self : OllamaClient) (user_id : Z) (message system_prompt : string) :
  ∃ reply w, call (generate_response B user_id message system_prompt) self = (Ok reply, w).
Proof.
  destruct (failure_kind (session_post B (OLLAMA_URL B)
              (expected_payload self user_id message system_prompt))) as [k |] eqn:Hk.
  - rewrite (generate_response_on_failure _ _ _ _ _ k Hk). eauto.
  - destruct (failure_kind_none _ Hk) as [v Hv].
    rewrite (generate_response_on_success _ _ _ _ _ v Hv). eauto.
Qed.

Lemma generate_response_posted
    (B : Backend) (self : OllamaClient) (user_id : Z) (message system_prompt : string) :
  posted (call (generate_response B user_id message system_prompt) self).2
  = [(OLLAMA_URL B, expected_payload self user_id message system_prompt)].
Proof.
  destruct (failure_kind (session_post B (OLLAMA_URL B)
              (expected_payload self user_id message system_prompt))) as [k |] eqn:Hk.
  - by rewrite (generate_response_on_failure _ _ _ _ _ k Hk).
  - destruct (failure_kind_none _ Hk) as [v Hv].
    by rewrite (generate_response_on_success _ _ _ _ _ v Hv).
Qed.

(** C1: when the outbound call fails (the request raises, the status is
    not 200, decoding the body raises, or the decoded body is malformed),
    [generate_response] leaves the conversation history of every user as
    it was and returns a non-empty fallback string. *)
Theorem failed_call_keeps_history
    (B : Backend) (self : OllamaClient) (user_id : Z) (message system_prompt : string) :
  call_fails
    (session_post B (OLLAMA_URL B) (expected_payload self user_id message system_prompt)) →
  conversation_history
    (client (call (generate_response B user_id message system_prompt) self).2)
  = conversation_history self
  ∧ ∃ s : string,
      (call (generate_response B user_id message system_prompt) self).1 = Ok (PStr s)
      ∧ s ≠ ""
      ∧ ∃ k : FailureKind, s = fallback_text k.
Proof.
  intros Hfail.
  destruct (failure_kind_of_call_fails _ _ _ _ _ Hfail) as [k Hk].
  rewrite (generate_response_on_failure _ _ _ _ _ k Hk). simpl.
  split; [reflexivity |].
  exists (fallback_text k). eauto using fallback_text_nonempty.
Qed.

Lemma failed_call_keeps_history_witness :
  conversation_history
    (client (call (generate_response (status_backend 500 "Internal Server Error")
                     7 "hello" "Be kind.") sample_client).2)
  = conversation_history sample_client.
Proof.
  refine (proj1 (failed_call_keeps_history
                   (status_backend 500 "Internal Server Error")
                   sample_client 7 "hello" "Be kind." _)).
  simpl. left. discriminate.
Defined.

(** C3: when the backend answers with status 200 and a well-formed reply
    body, [generate_response] returns the body's [message.content] (the
    empty string when that field is absent) and appends to the user's
    conversation the user turn and then the assistant turn, leaving every
    other user's conversation as it was. *)
Theorem successful_call_appends_two_turns
    (B : Backend) (self : OllamaClient) (user_id : Z) (message system_prompt : string)
    (v : pyval) :
  call_succeeds
    (session_post B (OLLAMA_URL B) (expected_payload self user_id message system_prompt))
    v →
  let run := call (generate_response B user_id message system_prompt) self in
  let reply := reply_text v in
  run.1 = Ok reply
  ∧ client run.2
    = add_to_conversation
        (add_to_conversation self user_id "user" (PStr message))
        user_id "assistant" reply
  ∧ get_conversation (client run.2) user_id
    = slice_last 10 (get_conversation self user_id
                     ++ [mkTurn "user" (PStr message); mkTurn "assistant" reply])
  ∧ ((length (get_conversation self user_id) ≤ 8)%nat →
       get_conversation (client run.2) user_id
       = get_conversation self user_id
         ++ [mkTurn "user" (PStr message); mkTurn "assistant" reply])
  ∧ (∀ other : Z, other ≠ user_id →
       conversation_history (client run.2) !! other = conversation_history self !! other)
  ∧ (∀ d m c, v = PDict d → dict_get d "message" = Some (PDict m) →
       dict_get m "content" = Some c → reply = c)
  ∧ (∀ d m, v = PDict d → dict_get d "message" = Some (PDict m) →
       dict_get m "content" = None → reply = PStr "")
  ∧ (∀ d, v = PDict d → dict_get d "message" = None → reply = PStr "").
Proof.
  intros Hok run reply. subst run reply.
  rewrite (generate_response_on_success _ _ _ _ _ v Hok). cbn [fst snd client].
  assert (Hget : get_conversation
                   (add_to_conversation
                      (add_to_conversation self user_id "user" (PStr message))
                      user_id "assistant" (reply_text v)) user_id
                 = slice_last 10 (get_conversation self user_id
                     ++ [mkTurn "user" (PStr message);
                         mkTurn "assistant" (reply_text v)])).
  { rewrite !get_add_to_conversation, slice_last_app_absorb.
    by rewrite <- (assoc_L (++)). }
  repeat split.
  - exact Hget.
  - intros Hlen. rewrite Hget. apply slice_last_short.
    rewrite length_app. simpl. lia.
  - intros other Hne. by rewrite !lookup_add_to_conversation_ne.
  - intros d m c -> Hm Hc. simpl. by rewrite Hm, Hc.
  - intros d m -> Hm Hc. simpl. by rewrite Hm, Hc.
  - intros d -> Hm. simpl. by rewrite Hm.
Qed.

Lemma successful_call_appends_two_turns_witness :
  (call (generate_response (replying_backend (chat_reply "Hi there!"))
           7 "hello" "Be kind.") sample_client).1
  = Ok (PStr "Hi there!").
Proof.
  refine (proj1 (successful_call_appends_two_turns
                   (replying_backend (chat_reply "Hi there!"))
                   sample_client 7 "hello" "Be kind." (chat_reply "Hi there!") _)).
  eexists. repeat split.
Defined.

(** C8: every call of [generate_response] issues exactly one request, to
    the configured URL, whose body carries the system prompt, then the
    user's stored history in order, then the user's message, with
    streaming off and temperature 0.8, num_predict 500, num_ctx 4096,
    top_k 40 and top_p 0.9. *)
Theorem one_request_per_call
    (B : Backend) (self : OllamaClient) (user_id : Z) (message system_prompt : string) :
  posted (call (generate_response B user_id message system_prompt) self).2
  = [(OLLAMA_URL B,
      {| payload_model := model self;
         payload_messages :=
           [mkTurn "system" (PStr system_prompt)]
             ++ get_conversation self user_id
             ++ [mkTurn "user" (PStr message)];
         payload_stream := false;
         payload_options :=
           {| temperature := 0.8%Q; num_predict := 500; num_ctx := 4096;
              top_k := 40; top_p := 0.9%Q |} |})].
Proof. apply generate_response_posted. Qed.

(** C10: with an empty memory context [generate_with_memory] is
    [generate_response]: the same reply, the same update of the client and
    the same request, from every starting state. *)
Theorem generate_with_memory_without_context
    (B : Backend) (user_id : Z) (message system_prompt : string) :
  generate_with_memory B user_id message system_prompt ""
  = generate_response B user_id message system_prompt
  ∧ ∀ self : OllamaClient,
      call (generate_with_memory B user_id message system_prompt "") self
      = call (generate_response B user_id message system_prompt) self.
Proof. split; [| intros self]; reflexivity. Qed.

(** C6, as stated, fails: the text of an exception that is neither a
    connection error nor a timeout is returned verbatim after the generic
    phrase, so that two such exceptions with different texts get different
    replies. *)
Lemma exception_text_is_shown : ¬ exception_text_hidden.
Proof.
  intros Hhidden.
  specialize (Hhidden (raising_backend (OtherException "Connection reset by peer"))
                (raising_backend (OtherException "Server disconnected"))
                (init "qwen2.5" 120) 7 "hello" "Be kind."
                (OtherException "Connection reset by peer")
                (OtherException "Server disconnected")
                eq_refl eq_refl eq_refl).
  vm_compute in Hhidden. discriminate Hhidden.
Qed.

Example exception_text_in_reply :
  (call (generate_response (raising_backend (OtherException "Connection reset by peer"))
           7 "hello" "Be kind.") (init "qwen2.5" 120)).1
  = Ok (PStr "Oops! Something went wrong: Connection reset by peer")
  ∧ str_in "Connection reset by peer"
      "Oops! Something went wrong: Connection reset by peer" = true.
Proof. split; reflexivity. Qed.

(** C6, amended: a failed call returns the fixed connection phrase when a
    connection error is raised, the fixed timeout phrase when a timeout is
    raised, the status phrase with the status code (and nothing of the
    response body) when the status is not 200, the generic phrase followed
    by the text of the exception when any other exception is raised, and
    the generic phrase followed by the attribute error naming the type of
    the offending value when the decoded body is malformed. *)
Theorem fallback_text_by_failure_kind
    (B : Backend) (self : OllamaClient) (user_id : Z) (message system_prompt : string) :
  let r := session_post B (OLLAMA_URL B)
             (expected_payload self user_id message system_prompt) in
  let reply := (call (generate_response B user_id message system_prompt) self).1 in
  (∀ m, raised_by r (ClientConnectorError m) → reply = Ok (PStr connector_fallback))
  ∧ (∀ m, raised_by r (TimeoutError m) → reply = Ok (PStr timeout_fallback))
  ∧ (∀ response body, r = Ok response → status response ≠ 200 →
       text response = Ok body →
       reply = Ok (PStr ("Sorry, I got a " +:+ pretty (status response)
                         +:+ " error. Let me try again?")))
  ∧ (∀ m, raised_by r (OtherException m) →
       reply = Ok (PStr ("Oops! Something went wrong: " +:+ m)))
  ∧ (∀ response v, r = Ok response → status response = 200 →
       json response = Ok v → well_formed_reply v = false →
       reply = Ok (PStr ("Oops! Something went wrong: '"
                         +:+ type_name (offending_value v)
                         +:+ "' object has no attribute 'get'"))).
Proof.
  intros r reply.
  assert (Hkind : ∀ k, failure_kind r = Some k → reply = Ok (PStr (fallback_text k))).
  { intros k Hk. subst reply r.
    by rewrite (generate_response_on_failure _ _ _ _ _ k Hk). }
  assert (Hraised : ∀ e, raised_by r e → failure_kind r = Some (kind_of_exn e)).
  { intros e [-> | (response & -> & [[Hst Hj] | [Hst Ht]])]; simpl.
    - reflexivity.
    - by rewrite Hst, Hj.
    - apply Z.eqb_neq in Hst. by rewrite Hst, Ht. }
  repeat split.
  - intros m Hm. apply (Hkind _ (Hraised _ Hm)).
  - intros m Hm. apply (Hkind _ (Hraised _ Hm)).
  - intros response body Hr Hst Ht. apply (Hkind (BackendError (status response))).
    rewrite Hr. simpl. apply Z.eqb_neq in Hst. by rewrite Hst, Ht.
  - intros m Hm. apply (Hkind _ (Hraised _ Hm)).
  - intros response v Hr Hst Hj Hwf. apply (Hkind (Unknown _)).
    rewrite Hr. simpl. by rewrite Hst, Hj, Hwf.
Qed.

Lemma fallback_text_by_failure_kind_witness :
  (call (generate_response (raising_backend (TimeoutError "")) 7 "hello" "Be kind.")
     sample_client).1
  = Ok (PStr timeout_fallback)
  ∧ (call (generate_response (status_backend 503 "upstream unavailable")
             7 "hello" "Be kind.") sample_client).1
    = Ok (PStr "Sorry, I got a 503 error. Let me try again?").
Proof.
  split.
  - refine (proj1 (proj2 (fallback_text_by_failure_kind
                            (raising_backend (TimeoutError "")) sample_client
                            7 "hello" "Be kind.")) "" _).
    left. reflexivity.
  - refine (proj1 (proj2 (proj2 (fallback_text_by_failure_kind
                            (status_backend 503 "upstream unavailable") sample_client
                            7 "hello" "Be kind."))) _ "upstream unavailable" eq_refl _ eq_refl).
    discriminate.
Defined.

(** ** The effective prompt *)

Lemma string_app_nil_r (s : string) : s +:+ "" = s.
Proof.
  induction s as [| a s IH]; [reflexivity |].
  change (String a (s +:+ "") = String a s). by rewrite IH.
Qed.

Lemma call_try_except_ok {A : Type} (m : Run A) (handler : exn → Run A)
    (self : OllamaClient) (a : A) (w : World) :
  call m self = (Ok a, w) → call (try_except m handler) self = (Ok a, w).
Proof. unfold call, try_except. by intros ->. Qed.

(** C7: the prompt sent to the model is the system prompt followed by the
    fixed header and the digest exactly when the digest is non-empty, and
    the system prompt itself otherwise; with no facts and no pending tasks
    the digest is empty, so that the request of [handle_message] carries
    the system prompt alone, without header. *)
Theorem digest_appended_iff_nonempty (system_prompt digest : string) :
  (enhanced_prompt system_prompt digest = system_prompt +:+ context_header +:+ digest
   ↔ digest ≠ "")
  ∧ (digest = "" → enhanced_prompt system_prompt digest = system_prompt)
  ∧ memory_context_of [] [] = ""
  ∧ (∀ (B : Backend) (self : OllamaClient) (user_id : Z) (message : string),
       posted (call (generate_with_memory B user_id message system_prompt digest) self).2
       = [(OLLAMA_URL B,
           expected_payload self user_id message (enhanced_prompt system_prompt digest))])
  ∧ (∀ (lower : string → string) (B : Backend) (memory : MemoryManager)
       (self : OllamaClient) (user_id : Z) (message : string),
       get_facts memory user_id = [] →
       get_tasks memory user_id false = [] →
       posted (call (handle_message lower B memory user_id message) self).2
       = [(OLLAMA_URL B,
           expected_payload self user_id message
             (get_system_prompt (detect_mood lower message) (get_name memory user_id)))]).
Proof.
  split; [| split; [| split; [| split]]].
  - unfold enhanced_prompt. split.
    + intros Heq ->. rewrite decide_True in Heq by done.
      rewrite <- (string_app_nil_r system_prompt) in Heq at 1.
      apply (inj (String.app system_prompt)) in Heq. discriminate Heq.
    + intros Hne. by rewrite decide_False.
  - intros ->. reflexivity.
  - reflexivity.
  - intros B self user_id message. unfold generate_with_memory.
    apply generate_response_posted.
  - intros lower B memory self user_id message Hfacts Htasks.
    unfold handle_message. rewrite Hfacts, Htasks.
    change (memory_context_of [] []) with "".
    unfold generate_with_memory.
    change (enhanced_prompt ?sp "") with sp.
    destruct (generate_response_returns B self user_id message
                (get_system_prompt (detect_mood lower message) (get_name memory user_id)))
      as (reply & w & Hrun).
    rewrite (call_try_except_ok _ _ _ _ _ Hrun), <- Hrun.
    apply generate_response_posted.
Qed.

Lemma digest_appended_iff_nonempty_witness :
  enhanced_prompt "Be kind." (memory_context_of four_facts [])
  = "Be kind." +:+ context_header +:+ memory_context_of four_facts []
  ∧ posted (call (handle_message ascii_lower (replying_backend (chat_reply "Hi!"))
                    empty_memory 7 "hello") sample_client).2
    = [("http://localhost:11434/api/chat",
        expected_payload sample_client 7 "hello" (get_system_prompt "caring" "friend"))].
Proof.
  split.
  - apply (digest_appended_iff_nonempty "Be kind." (memory_context_of four_facts [])).
    discriminate.
  - apply (proj2 (proj2 (proj2 (proj2
             (digest_appended_iff_nonempty "Be kind." ""))))
             ascii_lower (replying_backend (chat_reply "Hi!")) empty_memory
             sample_client 7 "hello" eq_refl eq_refl).
Defined.

(** ** The memory digest *)

(** C5 fails on the code for its facts section: the facts query returns
    the newest fact first and the digest takes the last three entries of
    that snapshot, so that with four stored facts the digest shows the
    three oldest and leaves out the newest. *)
Theorem digest_drops_newest_fact :
  memory_context_of (get_facts full_memory 7) (get_tasks full_memory 7 false)
  = "I remember:
- adopted a cat
- plays the violin
- allergic to nuts

Current tasks:
- book flights
- call the vet
- pay rent
"
  ∧ str_in "moved to Lisbon"
      (memory_context_of (get_facts full_memory 7) (get_tasks full_memory 7 false))
    = false
  ∧ ¬ digest_shows_newest_facts.
Proof.
  split; [reflexivity |]. split; [reflexivity |].
  intros Hnewest. specialize (Hnewest four_facts). vm_compute in Hnewest.
  discriminate Hnewest.
Qed.

(** ** Mood detection *)

Section MoodProperties.

Local Open Scope nat_scope.

Variable lower : string → string.

Lemma prefix_iff (t s : string) :
  String.prefix t s = true ↔ ∃ b, s = t +:+ b.
Proof.
  revert s. induction t as [| c t IH]; intros s.
  - destruct s; split; eauto.
  - destruct s as [| c' s]; simpl.
    + split; [done | intros [b Hb]; discriminate Hb].
    + destruct (ascii_dec c c') as [-> | Hne].
      * rewrite IH. split; intros [b Hb]; exists b.
        -- by rewrite Hb.
        -- by injection Hb.
      * split; [done | intros [b Hb]; injection Hb as -> _; done].
Qed.

(** [str_in] is the substring test. *)
Lemma str_in_iff (t s : string) :
  str_in t s = true ↔ ∃ a b, s = a +:+ t +:+ b.
Proof.
  induction s as [| c s IH].
  - destruct t as [| c t]; simpl; split; try done.
    + intros _. by exists "", "".
    + intros (a & b & Hab). destruct a; discriminate Hab.
  - cbn [str_in]. rewrite orb_true_iff, prefix_iff, IH. split.
    + intros [[b Hb] | (a & b & Hab)].
      * by exists "", b.
      * exists (String c a), b. by rewrite Hab.
    + intros (a & b & Hab). destruct a as [| c' a].
      * left. by exists b.
      * right. exists a, b. by injection Hab.
Qed.

(** Each trigger counts once, however often it occurs. *)
Lemma trigger_score_length (message_lower : string) (config : MoodConfig) :
  trigger_score message_lower config
  = length (List.filter (λ trigger, str_in trigger message_lower) (triggers config)).
Proof. unfold trigger_score. rewrite sum_list_fmap_const. lia. Qed.

Lemma dict_set_fresh {V : Type} (d : list (string * V)) (k : string) (v : V) :
  k ∉ d.*1 → dict_set d k v = d ++ [(k, v)].
Proof.
  induction d as [| [k' v'] d IH]; simpl; intros Hfresh; [done |].
  destruct (String.eqb_spec k k') as [-> | Hne].
  - exfalso. apply Hfresh. left.
  - rewrite IH; [done |]. intros Hin. apply Hfresh. by right.
Qed.

Lemma dict_get_NoDup {V : Type} (d : list (string * V)) (k : string) (v : V) :
  NoDup d.*1 → (k, v) ∈ d → dict_get d k = Some v.
Proof.
  induction d as [| [k' v'] d IH]; simpl; intros Hnd Hin.
  - by apply elem_of_nil in Hin.
  - apply NoDup_cons in Hnd as [Hk' Hnd].
    apply elem_of_cons in Hin as [Heq | Hin].
    + injection Heq as -> ->. by rewrite String.eqb_refl.
    + destruct (String.eqb_spec k k') as [-> | Hne]; [| by apply IH].
      exfalso. apply Hk'. apply list_elem_of_fmap. by exists (k', v).
Qed.

Lemma filter_app_cons_inv {A : Type} (P : A → bool) (l a b : list A) (x : A) :
  List.filter P l = a ++ x :: b →
  ∃ la lb, l = la ++ x :: lb ∧ List.filter P la = a ∧ List.filter P lb = b.
Proof.
  revert a. induction l as [| y l IH]; simpl; intros a Heq.
  - destruct a; discriminate Heq.
  - destruct (P y) eqn:Hy.
    + destruct a as [| y' a]; simpl in Heq; injection Heq as -> Heq.
      * by exists [], l.
      * destruct (IH _ Heq) as (la & lb & -> & <- & <-).
        exists (y' :: la), lb. simpl. by rewrite Hy.
    + destruct (IH _ Heq) as (la & lb & -> & <- & <-).
      exists (y :: la), lb. simpl. by rewrite Hy.
Qed.

(** The scan of [max]: the result is the first element with the greatest
    key. *)
Lemma max_scan_first_max {A : Type} (key : A → nat) (best : A) (rest : list A) :
  ∃ before after,
    best :: rest = before ++ max_scan key best rest :: after
    ∧ Forall (λ x, key x < key (max_scan key best rest)) before
    ∧ Forall (λ x, key x ≤ key (max_scan key best rest)) after.
Proof.
  revert best. induction rest as [| x rest IH]; intros best; simpl.
  - exists [], []. by repeat split.
  - destruct (key best <? key x) eqn:Hlt.
    + apply Nat.ltb_lt in Hlt.
      destruct (IH x) as (before & after & Heq & Hb & Ha).
      exists (best :: before), after. rewrite Heq at 1. split; [done |].
      split; [| done]. constructor; [| done].
      destruct before as [| y before]; simpl in Heq; injection Heq as Hx _.
      * by rewrite <- Hx.
      * subst y. apply Forall_cons in Hb as [Hb _]. lia.
    + apply Nat.ltb_ge in Hlt.
      destruct (IH best) as (before & after & Heq & Hb & Ha).
      destruct before as [| y before]; simpl in Heq; injection Heq as Hbest Hrest.
      * exists [], (x :: after). rewrite <- Hbest in Ha |- *. rewrite Hrest.
        split; [done |]. split; [done |]. by constructor.
      * subst y. exists (best :: x :: before), after. rewrite Hrest at 1.
        split; [done |]. split; [| done].
        apply Forall_cons in Hb as [Hbest Hb].
        constructor; [done |]. constructor; [lia | done].
Qed.

Lemma mood_scores_fold (table : list (string * MoodConfig)) (message_lower : string)
    (acc : list (string * nat)) :
  NoDup table.*1 →
  (∀ k, k ∈ table.*1 → k ∉ acc.*1) →
  foldl (λ mood_scores item,
           let score := trigger_score message_lower item.2 in
           if 0 <? score then dict_set mood_scores item.1 score else mood_scores)
        acc table
  = acc ++ List.filter has_score (scored_table message_lower table).
Proof.
  revert acc. induction table as [| [k config] table IH]; intros acc Hnd Hfresh.
  - simpl. by rewrite app_nil_r.
  - rewrite fmap_cons in Hnd, Hfresh. cbn [fst] in Hnd, Hfresh.
    apply NoDup_cons in Hnd as [Hk Hnd].
    unfold scored_table. rewrite fmap_cons. fold (scored_table message_lower table).
    cbn [foldl List.filter fst snd]. unfold has_score at 1. cbn [snd].
    destruct (0 <? trigger_score message_lower config) eqn:Hs.
    + rewrite dict_set_fresh by (apply Hfresh; left).
      rewrite IH; [by rewrite <- (assoc_L (++)) | done |].
      intros k' Hk'. rewrite fmap_app, elem_of_app. cbn [fmap list_fmap fst].
      rewrite list_elem_of_singleton.
      intros [Hin | ->]; [| done].
      by apply (Hfresh k'); [right |].
    + apply IH; [done |]. intros k' Hk'. apply Hfresh. by right.
Qed.

Lemma mood_scores_of_filter (table : list (string * MoodConfig)) (message_lower : string) :
  NoDup table.*1 →
  mood_scores_of table message_lower
  = List.filter has_score (scored_table message_lower table).
Proof.
  intros Hnd. unfold mood_scores_of.
  rewrite mood_scores_fold; [done | done |].
  intros k _. apply not_elem_of_nil.
Qed.

Lemma elem_of_filter {A : Type} (P : A → bool) (l : list A) (x : A) :
  x ∈ List.filter P l ↔ x ∈ l ∧ P x = true.
Proof. rewrite !list_elem_of_In. apply List.filter_In. Qed.

Lemma NoDup_filter_keys {V : Type} (P : string * V → bool) (d : list (string * V)) :
  NoDup d.*1 → NoDup (List.filter P d).*1.
Proof.
  induction d as [| [k v] d IH]; simpl; intros Hnd; [done |].
  apply NoDup_cons in Hnd as [Hk Hnd].
  destruct (P (k, v)); [| by apply IH].
  simpl. apply NoDup_cons. split; [| by apply IH].
  intros Hin. apply Hk.
  apply list_elem_of_fmap in Hin as (p & -> & Hp).
  apply elem_of_filter in Hp as [Hp _].
  apply list_elem_of_fmap. by exists p.
Qed.

Lemma scored_table_keys (message_lower : string) (table : list (string * MoodConfig)) :
  (scored_table message_lower table).*1 = table.*1.
Proof. unfold scored_table. rewrite <- list_fmap_compose. done. Qed.

(** The scan over a table of distinct moods returns the mood declared
    first among those with the greatest score. *)
Lemma table_scan (table : list (string * MoodConfig)) (message_lower : string)
    (first : string) (rest : list string) :
  NoDup table.*1 →
  (mood_scores_of table message_lower).*1 = first :: rest →
  ∃ before config after,
    table
    = before
      ++ (max_scan (λ mood, default 0 (dict_get (mood_scores_of table message_lower) mood))
            first rest, config) :: after
    ∧ Forall (λ item, trigger_score message_lower item.2
                      < trigger_score message_lower config) before
    ∧ Forall (λ item, trigger_score message_lower item.2
                      ≤ trigger_score message_lower config) after.
Proof.
  intros Hnd Hkeys.
  set (d := mood_scores_of table message_lower) in *.
  set (key := λ mood, default 0 (dict_get d mood)).
  assert (Hd : d = List.filter has_score (scored_table message_lower table))
    by by apply mood_scores_of_filter.
  assert (Hndd : NoDup d.*1).
  { rewrite Hd. apply NoDup_filter_keys. by rewrite scored_table_keys. }
  assert (Hkey : ∀ p, p ∈ d → key p.1 = p.2).
  { intros [k v] Hp. unfold key. cbn [fst snd].
    by rewrite (dict_get_NoDup d k v). }
  destruct (max_scan_first_max key first rest) as (kb & ka & Hsplit & Hkb & Hka).
  set (r := max_scan key first rest) in *.
  rewrite <- Hkeys in Hsplit.
  apply fmap_app_inv in Hsplit as (db & d2 & -> & Hd2 & Hdeq).
  symmetry in Hd2. apply fmap_cons_inv in Hd2 as ([r' s] & da & Hr & -> & ->).
  simpl in Hr. subst r'.
  assert (Hrs : key r = s).
  { apply (Hkey (r, s)). rewrite Hdeq. apply elem_of_app. right. left. }
  assert (Hdb : Forall (λ p, p.2 < s) db).
  { apply Forall_forall. intros p Hp.
    rewrite <- (Hkey p) by (rewrite Hdeq; apply elem_of_app; by left).
    rewrite <- Hrs. rewrite Forall_fmap in Hkb.
    by apply (proj1 (Forall_forall _ _) Hkb). }
  assert (Hda : Forall (λ p, p.2 ≤ s) da).
  { apply Forall_forall. intros p Hp.
    rewrite <- (Hkey p) by (rewrite Hdeq; apply elem_of_app; right; by right).
    rewrite <- Hrs. rewrite Forall_fmap in Hka.
    by apply (proj1 (Forall_forall _ _) Hka). }
  assert (Hs : 0 < s).
  { assert (Hin : (r, s) ∈ List.filter has_score (scored_table message_lower table)).
    { rewrite <- Hd, Hdeq. apply elem_of_app. right. left. }
    apply elem_of_filter in Hin as [_ Hin]. by apply Nat.ltb_lt in Hin. }
  rewrite Hd in Hdeq.
  apply filter_app_cons_inv in Hdeq as (sb & sa & Hscored & Hfb & Hfa).
  assert (Hsb : Forall (λ p, p.2 < s) sb).
  { apply Forall_forall. intros p Hp.
    destruct (has_score p) eqn:Hps.
    - apply (proj1 (Forall_forall _ _) Hdb). rewrite <- Hfb.
      by apply elem_of_filter.
    - apply Nat.ltb_ge in Hps. lia. }
  assert (Hsa : Forall (λ p, p.2 ≤ s) sa).
  { apply Forall_forall. intros p Hp.
    destruct (has_score p) eqn:Hps.
    - apply (proj1 (Forall_forall _ _) Hda). rewrite <- Hfa.
      by apply elem_of_filter.
    - apply Nat.ltb_ge in Hps. lia. }
  unfold scored_table in Hscored.
  apply fmap_app_inv in Hscored as (tb & t2 & -> & Ht2 & ->).
  symmetry in Ht2. apply fmap_cons_inv in Ht2 as ([name config] & ta & Hitem & -> & ->).
  simpl in Hitem. injection Hitem as Hname Hscore.
  exists tb, config, ta. rewrite Hname. split; [done |].
  rewrite <- Hscore. rewrite Forall_fmap in Hsb, Hsa. by split.
Qed.

Lemma MOODS_NoDup : NoDup MOODS.*1.
Proof. by apply (bool_decide_unpack _). Qed.

Lemma filter_nil_iff {A : Type} (P : A → bool) (l : list A) :
  List.filter P l = [] ↔ Forall (λ x, P x = false) l.
Proof.
  induction l as [| x l IH]; simpl; [done |].
  rewrite Forall_cons, <- IH. destruct (P x); [| tauto].
  split; [discriminate | intros [Hx _]; discriminate Hx].
Qed.

Lemma no_mood_scores_iff (table : list (string * MoodConfig)) (message_lower : string) :
  NoDup table.*1 →
  (mood_scores_of table message_lower).*1 = []
  ↔ Forall (λ item, trigger_score message_lower item.2 = 0) table.
Proof.
  intros Hnd. rewrite mood_scores_of_filter by done.
  trans (List.filter has_score (scored_table message_lower table) = []).
  { split; [apply fmap_nil_inv | by intros ->]. }
  rewrite filter_nil_iff. unfold scored_table.
  rewrite Forall_fmap. apply Forall_iff. intros [k config].
  unfold has_score, compose. cbn [fst snd]. rewrite Nat.ltb_ge. lia.
Qed.

End MoodProperties.

(** C4: [detect_mood] scores each mood of the table by the number of its
    trigger keywords that occur as substrings of the lower-cased text, each
    keyword counting once, and returns the mood declared first among those
    with the greatest score; when every mood scores 0 that is "caring". *)
Theorem detect_mood_first_maximum (lower : string → string) (message : string) :
  let score := trigger_score (lower message) in
  (∀ trigger, str_in trigger (lower message) = true
              ↔ ∃ a b, lower message = a +:+ trigger +:+ b)
  ∧ (∀ config, score config
               = length (List.filter (λ trigger, str_in trigger (lower message))
                                     (triggers config)))
  ∧ (∃ before config after,
       MOODS = before ++ (detect_mood lower message, config) :: after
       ∧ Forall (λ item, (score item.2 < score config)%nat) before
       ∧ Forall (λ item, (score item.2 ≤ score config)%nat) after)
  ∧ (Forall (λ item, score item.2 = 0%nat) MOODS → detect_mood lower message = "caring").
Proof.
  intros score. split; [| split].
  - intros trigger. apply str_in_iff.
  - intros config. apply trigger_score_length.
  - unfold detect_mood.
    destruct ((mood_scores_of MOODS (lower message)).*1) as [| first rest] eqn:Hkeys.
    + apply (no_mood_scores_iff _ _ MOODS_NoDup) in Hkeys. fold score in Hkeys.
      split; [| done].
      eexists [], _, _. split; [reflexivity |]. split; [done |].
      apply Forall_cons in Hkeys as [Hcaring Hrest]. cbn [snd] in Hcaring.
      rewrite Hcaring. eapply Forall_impl; [exact Hrest |].
      intros item Hitem. simpl in Hitem. lia.
    + split.
      * apply (table_scan MOODS (lower message) first rest MOODS_NoDup Hkeys).
      * intros Hzero. apply (no_mood_scores_iff _ _ MOODS_NoDup) in Hzero.
        rewrite Hkeys in Hzero. discriminate Hzero.
Qed.

Lemma detect_mood_first_maximum_witness :
  detect_mood ascii_lower "Good morning!" = "caring".
Proof.
  apply (proj2 (proj2 (proj2 (detect_mood_first_maximum ascii_lower "Good morning!")))).
  repeat constructor.
Defined.

(** One hit each for "caring" and "calm": the mood declared first wins. *)
Example detect_mood_tie : detect_mood ascii_lower "Sad and TIRED" = "caring".
Proof. reflexivity. Qed.

(** Two hits for "calm" against one for "caring" and one for "protective". *)
Example detect_mood_most_hits :
  detect_mood ascii_lower "tired, sad, full of anxiety" = "calm".
Proof. reflexivity. Qed.

(** A trigger repeated in the text still counts once. *)
Example detect_mood_repeated_trigger :
  detect_mood ascii_lower "haha haha haha, what a sad, lonely day" = "caring".
Proof. reflexivity. Qed.

(** * Further properties of the client *)

Lemma generate_response_cases
    (B : Backend) (self : OllamaClient) (user_id : Z) (message system_prompt : string) :
  let request := expected_payload self user_id message system_prompt in
  (∃ k, failure_kind (session_post B (OLLAMA_URL B) request) = Some k
        ∧ call (generate_response B user_id message system_prompt) self
          = (Ok (PStr (fallback_text k)),
             {| client := self; posted := [(OLLAMA_URL B, request)] |}))
  ∨ (∃ v, call_succeeds (session_post B (OLLAMA_URL B) request) v
          ∧ call (generate_response B user_id message system_prompt) self
            = (Ok (reply_text v),
               {| client :=
                    add_to_conversation
                      (add_to_conversation self user_id "user" (PStr message))
                      user_id "assistant" (reply_text v);
                  posted := [(OLLAMA_URL B, request)] |})).
Proof.
  intros request.
  destruct (failure_kind (session_post B (OLLAMA_URL B) request)) as [k |] eqn:Hk.
  - left. exists k. split; [done |]. by apply generate_response_on_failure.
  - right. destruct (failure_kind_none _ Hk) as [v Hv].
    exists v. split; [done |]. by apply generate_response_on_success.
Qed.

(** No exception leaves [generate_response], whatever the backend does,
    so that the handler around the call in [handle_message] never runs:
    [handle_message] returns what [generate_with_memory] returns. *)
Theorem generation_never_raises
    (lower : string → string) (B : Backend) (memory : MemoryManager)
    (self : OllamaClient) (user_id : Z) (message system_prompt : string) :
  (∃ reply w,
     call (generate_response B user_id message system_prompt) self = (Ok reply, w))
  ∧ call (handle_message lower B memory user_id message) self
    = call (generate_with_memory B user_id message
              (get_system_prompt (detect_mood lower message) (get_name memory user_id))
              (memory_context_of (get_facts memory user_id)
                                 (get_tasks memory user_id false))) self.
Proof.
  split.
  - destruct (generate_response_cases B self user_id message system_prompt)
      as [(k & _ & ->) | (v & _ & ->)]; eauto.
  - unfold handle_message, generate_with_memory.
    destruct (generate_response_cases B self user_id message
                (enhanced_prompt
                   (get_system_prompt (detect_mood lower message)
                      (get_name memory user_id))
                   (memory_context_of (get_facts memory user_id)
                      (get_tasks memory user_id false))))
      as [(k & _ & Hrun) | (v & _ & Hrun)];
      rewrite (call_try_except_ok _ _ _ _ _ Hrun); by rewrite Hrun.
Qed.

Lemma within_cap_add (self : OllamaClient) (user_id : Z) (r : string) (c : pyval) :
  within_cap self → within_cap (add_to_conversation self user_id r c).
Proof.
  intros Hcap other l Hl.
  destruct (decide (user_id = other)) as [<- | Hne].
  - assert (Hget : get_conversation (add_to_conversation self user_id r c) user_id = l)
      by (unfold get_conversation; by rewrite Hl).
    rewrite get_add_to_conversation in Hget. subst l.
    rewrite slice_last_length. lia.
  - rewrite lookup_add_to_conversation_ne in Hl by done. by eapply Hcap.
Qed.

Lemma within_cap_clear (self : OllamaClient) (user_id : Z) :
  within_cap self → within_cap (clear_conversation self user_id).
Proof.
  intros Hcap other l. unfold clear_conversation.
  destruct (conversation_history self !! user_id) eqn:Hu; [| by apply Hcap].
  simpl. destruct (decide (user_id = other)) as [<- | Hne].
  - rewrite lookup_insert_eq. intros [= <-]. simpl. lia.
  - rewrite lookup_insert_ne by done. by apply Hcap.
Qed.

Lemma within_cap_reachable (self : OllamaClient) : reachable self → within_cap self.
Proof.
  induction 1 as [model timeout | self u r c _ IH | self u _ IH | self B u m sp _ IH].
  - intros u l Hl. simpl in Hl. by rewrite lookup_empty in Hl.
  - by apply within_cap_add.
  - by apply within_cap_clear.
  - destruct (generate_response_cases B self u m sp)
      as [(k & _ & ->) | (v & _ & ->)]; simpl; [done |].
    by do 2 apply within_cap_add.
Qed.

(** In every client reached from a new one by appends, clears and
    generation calls, no conversation holds more than ten turns, and every
    request it then sends carries at most twelve messages. *)
Theorem reachable_client_is_bounded
    (self : OllamaClient) (B : Backend) (user_id : Z) (message system_prompt : string) :
  reachable self →
  (∀ u, (length (get_conversation self u) ≤ 10)%nat)
  ∧ ∃ payload,
      posted (call (generate_response B user_id message system_prompt) self).2
      = [(OLLAMA_URL B, payload)]
      ∧ (length (payload_messages payload) ≤ 12)%nat.
Proof.
  intros Hreach. apply within_cap_reachable in Hreach.
  assert (Hlen : ∀ u, (length (get_conversation self u) ≤ 10)%nat).
  { intros u. unfold get_conversation.
    destruct (conversation_history self !! u) as [l |] eqn:Hl; simpl; [| lia].
    by eapply Hreach. }
  split; [exact Hlen |].
  eexists. split; [apply generate_response_posted |].
  simpl. rewrite length_app. simpl. specialize (Hlen user_id). lia.
Qed.

Lemma reachable_client_is_bounded_witness :
  (length (get_conversation (after_chats 7) 7) ≤ 10)%nat.
Proof.
  refine (proj1 (reachable_client_is_bounded (after_chats 7)
                   (raising_backend (TimeoutError "")) 7 "hello" "Be kind." _) 7).
  cbn [after_chats]. repeat apply reachable_generate. apply reachable_init.
Defined.

Lemma get_clear_conversation (self : OllamaClient) (cleared user_id : Z) :
  get_conversation (clear_conversation self cleared) user_id
  = if decide (cleared = user_id) then [] else get_conversation self user_id.
Proof.
  unfold get_conversation, clear_conversation.
  destruct (conversation_history self !! cleared) as [l |] eqn:Hl; simpl.
  - destruct (decide (cleared = user_id)) as [<- | Hne].
    + by rewrite lookup_insert_eq.
    + by rewrite lookup_insert_ne.
  - destruct (decide (cleared = user_id)) as [<- | Hne]; [by rewrite Hl | done].
Qed.

Lemma get_add_to_conversation_ne
    (self : OllamaClient) (user_id other : Z) (r : string) (c : pyval) :
  user_id ≠ other →
  get_conversation (add_to_conversation self user_id r c) other
  = get_conversation self other.
Proof.
  intros Hne. unfold get_conversation.
  by rewrite lookup_add_to_conversation_ne.
Qed.

Lemma pair_induction {A : Type} (P : list A → Prop) :
  P [] → (∀ x, P [x]) → (∀ x y l, P l → P (x :: y :: l)) → ∀ l, P l.
Proof.
  intros Hnil Hone Hstep l.
  assert (Hboth : P l ∧ ∀ x, P (x :: l)); [| by destruct Hboth].
  induction l as [| y l [IH1 IH2]]; [by split |].
  split; [apply IH2 |]. intros x. by apply Hstep.
Qed.

Lemma exchanges_length (l : list Turn) :
  exchanges l = true → ∃ k : nat, length l = (2 * k)%nat.
Proof.
  induction l as [| x | x y l IH] using pair_induction; simpl.
  - by exists 0%nat.
  - done.
  - intros [_ Hl]%andb_true_iff. destruct (IH Hl) as [k Hk].
    exists (S k). lia.
Qed.

Lemma exchanges_app (l : list Turn) (x y : pyval) :
  exchanges l = true →
  exchanges (l ++ [mkTurn "user" x; mkTurn "assistant" y]) = true.
Proof.
  induction l as [| z | u a l IH] using pair_induction; simpl; [done | done |].
  intros [Hroles Hl]%andb_true_iff. by rewrite Hroles, IH.
Qed.

Lemma exchanges_drop (k : nat) (l : list Turn) :
  exchanges l = true → exchanges (drop (2 * k) l) = true.
Proof.
  revert l. induction k as [| k IH]; intros l Hl; [done |].
  replace (2 * S k)%nat with (S (S (2 * k))) by lia.
  destruct l as [| u [| a l]]; simpl in *; [done | done |].
  apply andb_true_iff in Hl as [_ Hl]. by apply IH.
Qed.

Lemma exchanges_slice_last (l : list Turn) :
  exchanges l = true → exchanges (slice_last 10 l) = true.
Proof.
  intros Hl. destruct (exchanges_length l Hl) as [k Hk].
  unfold slice_last. rewrite Hk.
  replace (2 * k - 10)%nat with (2 * (k - 5))%nat by lia.
  by apply exchanges_drop.
Qed.

Lemma exchanges_chat_reachable (self : OllamaClient) (user_id : Z) :
  chat_reachable self → exchanges (get_conversation self user_id) = true.
Proof.
  intros Hreach. revert user_id.
  induction Hreach as [model timeout | self u _ IH | self B u m sp _ IH];
    intros user_id.
  - done.
  - rewrite get_clear_conversation. by case_decide.
  - destruct (generate_response_cases B self u m sp)
      as [(k & _ & ->) | (v & _ & ->)]; simpl; [done |].
    destruct (decide (u = user_id)) as [<- | Hne].
    + rewrite !get_add_to_conversation, slice_last_app_absorb.
      rewrite <- (assoc_L (++)). simpl.
      by apply exchanges_slice_last, exchanges_app.
    + by rewrite !get_add_to_conversation_ne.
Qed.

(** In a client used through generation calls and resets only, every
    stored conversation is a sequence of whole exchanges (a user turn, then
    an assistant turn), also after the oldest turns were dropped; so every
    request carries the system prompt, whole exchanges, and the new user
    message. *)
Theorem history_is_whole_exchanges
    (self : OllamaClient) (B : Backend) (user_id : Z) (message system_prompt : string) :
  chat_reachable self →
  exchanges (get_conversation self user_id) = true
  ∧ ∃ history payload,
      posted (call (generate_response B user_id message system_prompt) self).2
      = [(OLLAMA_URL B, payload)]
      ∧ payload_messages payload
        = mkTurn "system" (PStr system_prompt) :: history
          ++ [mkTurn "user" (PStr message)]
      ∧ exchanges history = true.
Proof.
  intros Hreach.
  pose proof (exchanges_chat_reachable self user_id Hreach) as Hex.
  split; [exact Hex |].
  exists (get_conversation self user_id). eexists.
  split; [apply generate_response_posted |]. by split.
Qed.

Lemma history_is_whole_exchanges_witness :
  exchanges (get_conversation (after_chats 7) 7) = true.
Proof.
  refine (proj1 (history_is_whole_exchanges (after_chats 7)
                   (raising_backend (TimeoutError "")) 7 "hello" "Be kind." _)).
  cbn [after_chats]. repeat apply chat_generate. apply chat_init.
Defined.

(** A generation call, a clear and an append for one user leave the
    conversation of every other user, the model name and the timeout as
    they were, whatever the backend does. *)
Theorem other_users_untouched
    (B : Backend) (self : OllamaClient) (user_id other : Z)
    (message system_prompt r : string) (c : pyval) :
  other ≠ user_id →
  let after := client (call (generate_response B user_id message system_prompt) self).2 in
  conversation_history after !! other = conversation_history self !! other
  ∧ model after = model self ∧ timeout after = timeout self
  ∧ conversation_history (clear_conversation self user_id) !! other
    = conversation_history self !! other
  ∧ conversation_history (add_to_conversation self user_id r c) !! other
    = conversation_history self !! other.
Proof.
  intros Hne after. subst after.
  assert (Hclear : conversation_history (clear_conversation self user_id) !! other
                   = conversation_history self !! other).
  { unfold clear_conversation.
    destruct (conversation_history self !! user_id); [| done].
    simpl. by rewrite lookup_insert_ne. }
  assert (Hadd : ∀ s r' c', conversation_history (add_to_conversation s user_id r' c')
                               !! other = conversation_history s !! other).
  { intros s r' c'. by apply lookup_add_to_conversation_ne. }
  destruct (generate_response_cases B self user_id message system_prompt)
    as [(k & _ & ->) | (v & _ & ->)]; cbn [snd client].
  - by repeat split.
  - rewrite !Hadd. by repeat split.
Qed.

Lemma other_users_untouched_witness :
  conversation_history
    (client (call (generate_response (replying_backend (chat_reply "Hi!"))
                     8 "hello" "Be kind.") sample_client).2) !! 7
  = conversation_history sample_client !! 7.
Proof.
  refine (proj1 (other_users_untouched (replying_backend (chat_reply "Hi!"))
                   sample_client 8 7 "hello" "Be kind." "user" PNone _)).
  discriminate.
Defined.

(** After an answered message, the next request of the same user carries
    that exchange at the end of its history: the system prompt, the last
    ten of the earlier history followed by the user message and the reply,
    then the new message. *)
Theorem next_request_carries_exchange
    (B B' : Backend) (self : OllamaClient) (user_id : Z)
    (message system_prompt message' system_prompt' : string) (v : pyval) :
  call_succeeds
    (session_post B (OLLAMA_URL B) (expected_payload self user_id message system_prompt))
    v →
  let after := client (call (generate_response B user_id message system_prompt) self).2 in
  ∃ payload,
    posted (call (generate_response B' user_id message' system_prompt') after).2
    = [(OLLAMA_URL B', payload)]
    ∧ payload_messages payload
      = mkTurn "system" (PStr system_prompt')
        :: slice_last 10
             (get_conversation self user_id
              ++ [mkTurn "user" (PStr message); mkTurn "assistant" (reply_text v)])
        ++ [mkTurn "user" (PStr message')].
Proof.
  intros Hok after. subst after.
  rewrite (generate_response_on_success _ _ _ _ _ v Hok). cbn [snd client].
  eexists. split; [apply generate_response_posted |]. simpl.
  rewrite !get_add_to_conversation, slice_last_app_absorb.
  by rewrite <- (assoc_L (++)).
Qed.

Lemma next_request_carries_exchange_witness :
  ∃ payload,
    posted (call (generate_response (raising_backend (TimeoutError "")) 7
                    "and you?" "Be kind.")
              (client (call (generate_response (replying_backend (chat_reply "Hi!"))
                               7 "hello" "Be kind.") (init "qwen2.5" 120)).2)).2
    = [("http://localhost:11434/api/chat", payload)]
    ∧ payload_messages payload
      = [mkTurn "system" (PStr "Be kind."); mkTurn "user" (PStr "hello");
         mkTurn "assistant" (PStr "Hi!"); mkTurn "user" (PStr "and you?")].
Proof.
  refine (next_request_carries_exchange
            (replying_backend (chat_reply "Hi!")) (raising_backend (TimeoutError ""))
            (init "qwen2.5" 120) 7 "hello" "Be kind." "and you?" "Be kind."
            (chat_reply "Hi!") _).
  eexists. repeat split.
Defined.

(** A failed call leaves the client exactly as it was, so that a retry
    behaves as if the failed call had not been made: the same request, the
    same reply and the same update. *)
Theorem retry_after_failure
    (B B' : Backend) (self : OllamaClient) (user_id : Z) (message system_prompt : string) :
  call_fails
    (session_post B (OLLAMA_URL B) (expected_payload self user_id message system_prompt)) →
  client (call (generate_response B user_id message system_prompt) self).2 = self
  ∧ call (generate_response B' user_id message system_prompt)
      (client (call (generate_response B user_id message system_prompt) self).2)
    = call (generate_response B' user_id message system_prompt) self.
Proof.
  intros Hfail.
  destruct (failure_kind_of_call_fails _ _ _ _ _ Hfail) as [k Hk].
  by rewrite (generate_response_on_failure _ _ _ _ _ k Hk).
Qed.

Lemma retry_after_failure_witness :
  call (generate_response (replying_backend (chat_reply "Hi!")) 7 "hello" "Be kind.")
    (client (call (generate_response (raising_backend (TimeoutError ""))
                     7 "hello" "Be kind.") sample_client).2)
  = call (generate_response (replying_backend (chat_reply "Hi!")) 7 "hello" "Be kind.")
      sample_client.
Proof.
  refine (proj2 (retry_after_failure (raising_backend (TimeoutError ""))
                   (replying_backend (chat_reply "Hi!"))
                   sample_client 7 "hello" "Be kind." _)).
  exact I.
Defined.

(** * Further properties of mood detection *)

Section MoodCorollaries.

Local Open Scope nat_scope.

Variable lower : string → string.

Lemma detect_mood_split (message : string) :
  ∃ before config after,
    MOODS = before ++ (detect_mood lower message, config) :: after
    ∧ Forall (λ item, trigger_score (lower message) item.2
                      < trigger_score (lower message) config) before
    ∧ Forall (λ item, trigger_score (lower message) item.2
                      ≤ trigger_score (lower message) config) after.
Proof.
  unfold detect_mood.
  destruct ((mood_scores_of MOODS (lower message)).*1) as [| first rest] eqn:Hkeys.
  - apply (no_mood_scores_iff _ _ MOODS_NoDup) in Hkeys.
    eexists [], _, _. split; [reflexivity |]. split; [done |].
    apply Forall_cons in Hkeys as [Hcaring Hrest]. cbn [snd] in Hcaring.
    rewrite Hcaring. eapply Forall_impl; [exact Hrest |].
    intros item Hitem. simpl in Hitem. lia.
  - apply (table_scan MOODS (lower message) first rest MOODS_NoDup Hkeys).
Qed.

End MoodCorollaries.

(** [detect_mood] always returns one of the seven moods of the table, so
    that the lookup in [get_system_prompt] finds that mood's own
    configuration and never falls back. *)
Theorem detect_mood_in_table (lower : string → string) (message : string) :
  ∃ config,
    (detect_mood lower message, config) ∈ MOODS
    ∧ dict_get MOODS (detect_mood lower message) = Some config.
Proof.
  destruct (detect_mood_split lower message) as (before & config & after & Hsplit & _).
  exists config.
  assert (Hin : (detect_mood lower message, config)
                ∈ before ++ (detect_mood lower message, config) :: after)
    by (apply elem_of_app; right; left).
  rewrite <- Hsplit in Hin.
  split; [exact Hin |]. by apply dict_get_NoDup; [apply MOODS_NoDup |].
Qed.

(** A mood whose score is strictly greater than the score of every other
    mood is the one returned, wherever it is declared. *)
Theorem strictly_best_mood_wins
    (lower : string → string) (message name : string) (config : MoodConfig) :
  (name, config) ∈ MOODS →
  (∀ name' config', (name', config') ∈ MOODS → name' ≠ name →
     (trigger_score (lower message) config'
      < trigger_score (lower message) config)%nat) →
  detect_mood lower message = name.
Proof.
  intros Hin Hbest.
  destruct (detect_mood_split lower message) as (before & best & after & Hsplit & Hb & Ha).
  destruct (decide (detect_mood lower message = name)) as [Heq | Hne]; [done |].
  assert (Hlt : (trigger_score (lower message) best
                 < trigger_score (lower message) config)%nat).
  { apply (Hbest (detect_mood lower message)); [| done].
    assert (Hmem : (detect_mood lower message, best)
                   ∈ before ++ (detect_mood lower message, best) :: after)
      by (apply elem_of_app; right; left).
    by rewrite <- Hsplit in Hmem. }
  rewrite Hsplit in Hin.
  apply elem_of_app in Hin as [Hin | Hin].
  - apply (proj1 (Forall_forall _ _) Hb) in Hin. simpl in Hin. lia.
  - apply elem_of_cons in Hin as [Hin | Hin].
    + injection Hin as Hname _. by rewrite Hname in Hne.
    + apply (proj1 (Forall_forall _ _) Ha) in Hin. simpl in Hin. lia.
Qed.

Lemma strictly_best_mood_wins_witness :
  detect_mood ascii_lower "We WON, what a success!" = "happy".
Proof.
  apply (strictly_best_mood_wins ascii_lower "We WON, what a success!" "happy"
           {| tone := "joyful, excited, celebrating";
              triggers := ["happy"; "excited"; "celebrate"; "good news"; "success"; "won"];
              response_style := "enthusiastic and celebratory" |}).
  - unfold MOODS. repeat (left || right).
  - intros name' config' Hin Hne. unfold MOODS in Hin.
    repeat (apply elem_of_cons in Hin as [[= -> ->] | Hin]; [try done; vm_compute; lia |]).
    by apply elem_of_nil in Hin.
Defined.

(** The default mood "caring", declared first, is returned exactly when no
    mood scores more than "caring" does: it wins every tie it is part of,
    the tie at score 0 included. *)
Theorem caring_iff_not_beaten (lower : string → string) (message : string) :
  detect_mood lower message = "caring"
  ↔ Forall (λ item, (trigger_score (lower message) item.2
                     ≤ trigger_score (lower message) caring_config)%nat) MOODS.
Proof.
  destruct (detect_mood_split lower message) as (before & best & after & Hsplit & Hb & Ha).
  pose proof MOODS_NoDup as Hnd.
  assert (Hhead : ∃ tail, MOODS = ("caring", caring_config) :: tail)
    by (eexists; reflexivity).
  destruct Hhead as [tail Hhead]. rewrite Hhead in Hsplit, Hnd |- *.
  destruct before as [| first before].
  - injection Hsplit as Hname Hcfg Htail. split.
    + intros _. constructor; [simpl; lia |]. rewrite Htail, Hcfg. exact Ha.
    + intros _. by rewrite <- Hname.
  - injection Hsplit as Hfirst Htail. split.
    + intros Hcaring. exfalso. rewrite Htail, Hcaring in Hnd.
      rewrite fmap_cons, fmap_app, fmap_cons in Hnd. cbn [fst] in Hnd.
      apply NoDup_cons in Hnd as [Hnotin _]. apply Hnotin.
      apply elem_of_app. right. left.
    + intros Hall. exfalso.
      apply Forall_cons in Hb as [Hlt _]. rewrite <- Hfirst in Hlt. cbn [snd] in Hlt.
      apply Forall_cons in Hall as [_ Hall]. rewrite Htail in Hall.
      apply Forall_app in Hall as [_ Hall].
      apply Forall_cons in Hall as [Hle _]. cbn [snd] in Hle. lia.
Qed.

Lemma caring_iff_not_beaten_witness :
  detect_mood ascii_lower "so sad, so tired" = "caring".
Proof.
  apply (caring_iff_not_beaten ascii_lower "so sad, so tired").
  apply (bool_decide_unpack _). vm_compute. exact I.
Defined.

(** * Further properties of the memory digest *)

Lemma string_app_eq_nil (a b : string) : a +:+ b = "" → a = "" ∧ b = "".
Proof.
  destruct a as [| c a]; [| discriminate].
  intros Hb. split; [reflexivity | exact Hb].
Qed.

Lemma add_bullets_nonempty (acc : string) (xs : list string) :
  acc ≠ "" → add_bullets acc xs ≠ "".
Proof.
  revert acc. induction xs as [| x xs IH]; intros acc Hacc; [done |].
  apply IH. by intros [? _]%string_app_eq_nil.
Qed.

(** The digest is empty exactly when the user has neither facts nor
    pending tasks; with either, [generate_with_memory] appends the header
    and the digest to the system prompt. *)
Theorem digest_empty_iff (facts : list Fact) (tasks : list Task) (system_prompt : string) :
  (memory_context_of facts tasks = "" ↔ facts = [] ∧ tasks = [])
  ∧ (facts ≠ [] ∨ tasks ≠ [] →
       enhanced_prompt system_prompt (memory_context_of facts tasks)
       = system_prompt +:+ context_header +:+ memory_context_of facts tasks).
Proof.
  assert (Hiff : memory_context_of facts tasks = "" ↔ facts = [] ∧ tasks = []).
  { split.
    - unfold memory_context_of. destruct tasks as [| t tasks]; intros Hempty.
      + destruct facts as [| f facts]; [done |].
        by apply add_bullets_nonempty in Hempty.
      + apply add_bullets_nonempty in Hempty; [done |].
        intros [_ Hnl]%string_app_eq_nil. discriminate Hnl.
    - by intros [-> ->]. }
  split; [exact Hiff |].
  intros Hsome. unfold enhanced_prompt. rewrite decide_False; [done |].
  rewrite Hiff. intros [-> ->]. by destruct Hsome.
Qed.

Lemma digest_empty_iff_witness :
  enhanced_prompt "Be kind." (memory_context_of [] four_tasks)
  = "Be kind." +:+ context_header +:+ memory_context_of [] four_tasks.
Proof.
  apply (digest_empty_iff [] four_tasks "Be kind."). right. discriminate.
Defined.



(** * Properties of the storage layer *)

Section Rows.

Local Open Scope nat_scope.

Lemma insert_row_perm {R : Type} (before : R → R → bool) (x : R) (rows : list R) :
  insert_row before x rows ≡ₚ x :: rows.
Proof.
  induction rows as [| y rows IH]; simpl; [done |].
  destruct (before x y); [done |]. rewrite IH. apply Permutation_swap.
Qed.

Lemma sample_engine_lawful : @Db.lawful sample_engine.
Proof.
  intros R before rows. simpl. unfold insertion_sort.
  induction rows as [| x rows IH]; simpl; [done |].
  by rewrite insert_row_perm, IH.
Qed.

Lemma existsb_eqb_false {A : Type} (key : A → string) (id : string) (rows : list A) :
  existsb (λ r, String.eqb (key r) id) rows = false → id ∉ key <$> rows.
Proof.
  intros Hfalse Hin. apply list_elem_of_fmap in Hin as (r & -> & Hr).
  assert (Htrue : existsb (λ r', String.eqb (key r') (key r)) rows = true).
  { apply existsb_exists. exists r. split; [by apply list_elem_of_In |].
    apply String.eqb_refl. }
  congruence.
Qed.

Lemma existsb_eqb_true {A : Type} (key : A → string) (id : string) (rows : list A) :
  existsb (λ r, String.eqb (key r) id) rows = true → id ∈ key <$> rows.
Proof.
  intros (r & Hr & Heq)%existsb_exists. apply String.eqb_eq in Heq.
  apply list_elem_of_fmap. exists r. split; [done | by apply list_elem_of_In].
Qed.

Lemma NoDup_fmap_snoc {A B : Type} (key : A → B) (rows : list A) (x : A) :
  NoDup (key <$> rows) → key x ∉ key <$> rows → NoDup (key <$> rows ++ [x]).
Proof.
  intros Hnd Hfresh. rewrite fmap_app. apply NoDup_app. split; [done |].
  split; [| apply NoDup_singleton].
  intros k Hk Hx. apply list_elem_of_singleton in Hx. by subst k.
Qed.

Lemma NoDup_fmap_filter {A B : Type} (key : A → B) (P : A → bool) (rows : list A) :
  NoDup (key <$> rows) → NoDup (key <$> List.filter P rows).
Proof.
  induction rows as [| r rows IH]; simpl; [done |].
  intros [Hr Hnd]%NoDup_cons. destruct (P r); [| by apply IH].
  simpl. apply NoDup_cons. split; [| by apply IH].
  intros (r' & Hkey & Hr')%list_elem_of_fmap. apply Hr.
  apply elem_of_filter in Hr' as [Hr' _].
  apply list_elem_of_fmap. by exists r'.
Qed.

Lemma Forall_filter {A : Type} (Q : A → Prop) (P : A → bool) (rows : list A) :
  Forall Q rows → Forall Q (List.filter P rows).
Proof.
  intros Hall. apply Forall_forall. intros r [Hr _]%elem_of_filter.
  by apply (proj1 (Forall_forall _ _) Hall).
Qed.

Lemma filter_snoc {A : Type} (P : A → bool) (rows : list A) (x : A) :
  List.filter P (rows ++ [x]) = List.filter P rows ++ (if P x then [x] else []).
Proof. rewrite List.filter_app. simpl. by destruct (P x). Qed.

Lemma filter_fmap_id {A : Type} (P : A → bool) (f : A → A) (rows : list A) :
  (∀ r, P (f r) = P r) → List.filter P (f <$> rows) = f <$> List.filter P rows.
Proof.
  intros Hf. induction rows as [| r rows IH]; [done |].
  rewrite fmap_cons. cbn [List.filter]. rewrite Hf, IH.
  by destruct (P r).
Qed.

Lemma fmap_if_none {A : Type} (P : A → bool) (f : A → A) (rows : list A) :
  List.filter P rows = [] → (λ r, if P r then f r else r) <$> rows = rows.
Proof.
  intros Hnone. apply filter_nil_iff in Hnone.
  induction Hnone as [| r rows Hr _ IH]; [done |].
  by rewrite fmap_cons, Hr, IH.
Qed.

Lemma filter_all {A : Type} (P : A → bool) (rows : list A) :
  Forall (λ r, P r = true) rows → List.filter P rows = rows.
Proof.
  induction 1 as [| r rows Hr _ IH]; simpl; [done |]. by rewrite Hr, IH.
Qed.

Lemma find_fmap_if {A : Type} (P : A → bool) (f : A → A) (Q : A → bool) (rows : list A) :
  (∀ r, Q (f r) = Q r) →
  List.find Q ((λ r, if P r then f r else r) <$> rows)
  = (λ r, if P r then f r else r) <$> List.find Q rows.
Proof.
  intros Hf. induction rows as [| r rows IH]; [done |].
  rewrite fmap_cons. cbn [List.find].
  assert (HQ : Q (if P r then f r else r) = Q r) by (destruct (P r); [apply Hf | done]).
  rewrite HQ. by destruct (Q r).
Qed.

End Rows.

(** ** Users *)

Lemma user_row_known (db : Db.Database) (user_id : Z) :
  is_Some (Db.user_row db user_id) ↔ user_id ∈ known_users db.
Proof.
  unfold Db.user_row, known_users. split.
  - intros [row Hrow]. apply List.find_some in Hrow as [Hin Hid].
    apply Z.eqb_eq in Hid. apply list_elem_of_fmap. exists row.
    split; [done | by apply list_elem_of_In].
  - intros (row & -> & Hin)%list_elem_of_fmap.
    destruct (List.find _ _) as [found |] eqn:Hfind; [by eexists |].
    apply list_elem_of_In in Hin.
    pose proof (List.find_none _ _ Hfind row Hin) as Hne.
    simpl in Hne. by rewrite Z.eqb_refl in Hne.
Qed.

Lemma user_row_id (db : Db.Database) (user_id : Z) (row : Db.UserRow) :
  Db.user_row db user_id = Some row → Db.users_user_id row = user_id.
Proof. intros [_ Hid%Z.eqb_eq]%List.find_some. done. Qed.

Lemma known_users_ensure (db : Db.Database) (user_id : Z) (now : string) :
  known_users (Db._ensure_user_exists db user_id now)
  = if decide (user_id ∈ known_users db) then known_users db
    else known_users db ++ [user_id].
Proof.
  unfold Db._ensure_user_exists.
  destruct (Db.user_row db user_id) as [row |] eqn:Hrow.
  - rewrite decide_True; [done |]. apply user_row_known. by eexists.
  - rewrite decide_False.
    + unfold known_users. simpl. by rewrite fmap_app.
    + intros Hin%user_row_known. rewrite Hrow in Hin. by destruct Hin.
Qed.

Lemma ensured_known (db : Db.Database) (user_id : Z) (now : string) :
  user_id ∈ known_users (Db._ensure_user_exists db user_id now).
Proof.
  rewrite known_users_ensure. case_decide; [done |].
  apply elem_of_app. right. left.
Qed.

Lemma known_ensure_mono (db : Db.Database) (user_id other : Z) (now : string) :
  other ∈ known_users db → other ∈ known_users (Db._ensure_user_exists db user_id now).
Proof.
  intros Hin. rewrite known_users_ensure. case_decide; [done |].
  apply elem_of_app. by left.
Qed.

(** ** Consistency is kept *)

Lemma consistent_empty : consistent Db.empty.
Proof. constructor; simpl; by constructor. Qed.

Lemma consistent_ensure (db : Db.Database) (user_id : Z) (now : string) :
  consistent db → consistent (Db._ensure_user_exists db user_id now).
Proof.
  intros Hdb. pose proof (known_users_ensure db user_id now) as Hknown.
  unfold Db._ensure_user_exists in *.
  destruct (Db.user_row db user_id) as [row |] eqn:Hrow; [done |].
  destruct Hdb. case_decide as Hin; [| clear Hin].
  { apply user_row_known in Hin. rewrite Hrow in Hin. by destruct Hin. }
  assert (Hfresh : user_id ∉ known_users db).
  { intros Hin%user_row_known. rewrite Hrow in Hin. by destruct Hin. }
  assert (Hmono : ∀ u, u ∈ known_users db → u ∈ known_users db ++ [user_id])
    by (intros u Hu; apply elem_of_app; by left).
  constructor; simpl; try done; rewrite ?Hknown.
  - apply NoDup_app. split; [done |]. split; [| apply NoDup_singleton].
    intros u Hu Hx. apply list_elem_of_singleton in Hx. by subst u.
  - eapply Forall_impl; [done |]. intros r. apply Hmono.
  - eapply Forall_impl; [done |]. intros r. apply Hmono.
  - eapply Forall_impl; [done |]. intros r. apply Hmono.
  - eapply Forall_impl; [done |]. intros r. apply Hmono.
Qed.

Lemma consistent_with_users (db : Db.Database) (rows : list Db.UserRow) :
  Db.users_user_id <$> rows = known_users db →
  consistent db → consistent (Db.with_users db rows).
Proof.
  intros Hids Hdb. destruct Hdb.
  constructor; simpl; try done; unfold known_users; simpl; by rewrite Hids.
Qed.

Lemma fmap_if_key {A B : Type} (key : A → B) (P : A → bool) (f : A → A) (rows : list A) :
  (∀ r, key (f r) = key r) →
  key <$> ((λ r, if P r then f r else r) <$> rows) = key <$> rows.
Proof.
  intros Hkey. rewrite <- list_fmap_compose. apply list_fmap_ext.
  intros i r _. simpl. destruct (P r); [apply Hkey | done].
Qed.

Lemma consistent_set_name (db : Db.Database) (user_id : Z) (name : string) :
  consistent db → consistent (Db.set_name db user_id name).2.
Proof.
  intros Hdb. simpl. apply consistent_with_users; [| done].
  unfold known_users. by apply fmap_if_key.
Qed.

Lemma consistent_save_message
    (db : Db.Database) (user_id : Z) (role content user_now now : string) :
  consistent db → consistent (Db.save_message db user_id role content user_now now).
Proof.
  intros Hdb. unfold Db.save_message.
  apply consistent_with_users; [| by apply consistent_ensure].
  unfold known_users. by apply fmap_if_key.
Qed.

Lemma consistent_add_note
    (db : Db.Database) (stamp : Db.Stamp) (user_id : Z) (content : string)
    (tags : option (list string)) :
  consistent db → consistent (Db.add_note db stamp user_id content tags).2.
Proof.
  intros Hdb. unfold Db.add_note.
  pose proof (consistent_ensure db user_id (Db.user_now stamp) Hdb) as Hdb1.
  pose proof (ensured_known db user_id (Db.user_now stamp)) as Hknown.
  set (db1 := Db._ensure_user_exists db user_id (Db.user_now stamp)) in *.
  destruct (existsb _ _) eqn:Hid; [done |]. simpl.
  apply existsb_eqb_false in Hid. destruct Hdb1.
  constructor; simpl; try done.
  - by apply NoDup_fmap_snoc.
  - apply Forall_app. split; [done |]. by constructor.
Qed.

Lemma consistent_add_task
    (db : Db.Database) (stamp : Db.Stamp) (user_id : Z) (description due_date : string) :
  consistent db → consistent (Db.add_task db stamp user_id description due_date).2.
Proof.
  intros Hdb. unfold Db.add_task.
  pose proof (consistent_ensure db user_id (Db.user_now stamp) Hdb) as Hdb1.
  pose proof (ensured_known db user_id (Db.user_now stamp)) as Hknown.
  set (db1 := Db._ensure_user_exists db user_id (Db.user_now stamp)) in *.
  destruct (existsb _ _) eqn:Hid; [done |]. simpl.
  apply existsb_eqb_false in Hid. destruct Hdb1.
  constructor; simpl; try done.
  - by apply NoDup_fmap_snoc.
  - apply Forall_app. split; [done |]. by constructor.
Qed.

Lemma consistent_add_reminder
    (db : Db.Database) (stamp : Db.Stamp) (user_id : Z) (message remind_at : string) :
  consistent db → consistent (Db.add_reminder db stamp user_id message remind_at).2.
Proof.
  intros Hdb. unfold Db.add_reminder.
  pose proof (consistent_ensure db user_id (Db.user_now stamp) Hdb) as Hdb1.
  pose proof (ensured_known db user_id (Db.user_now stamp)) as Hknown.
  set (db1 := Db._ensure_user_exists db user_id (Db.user_now stamp)) in *.
  destruct (existsb _ _) eqn:Hid; [done |]. simpl.
  apply existsb_eqb_false in Hid. destruct Hdb1.
  constructor; simpl; try done.
  - by apply NoDup_fmap_snoc.
  - apply Forall_app. split; [done |]. by constructor.
Qed.

Lemma consistent_save_fact
    (db : Db.Database) (stamp : Db.Stamp) (user_id : Z) (fact : string) :
  consistent db → consistent (Db.save_fact db stamp user_id fact).2.
Proof.
  intros Hdb. unfold Db.save_fact.
  pose proof (consistent_ensure db user_id (Db.user_now stamp) Hdb) as Hdb1.
  pose proof (ensured_known db user_id (Db.user_now stamp)) as Hknown.
  set (db1 := Db._ensure_user_exists db user_id (Db.user_now stamp)) in *.
  destruct (existsb _ _) eqn:Hid; [done |]. simpl.
  apply existsb_eqb_false in Hid. destruct Hdb1.
  constructor; simpl; try done.
  - by apply NoDup_fmap_snoc.
  - apply Forall_app. split; [done |]. by constructor.
Qed.

Lemma consistent_delete_note (db : Db.Database) (user_id : Z) (note_id : string) :
  consistent db → consistent (Db.delete_note db user_id note_id).2.
Proof.
  intros []. constructor; simpl; try done.
  - by apply NoDup_fmap_filter.
  - by apply Forall_filter.
Qed.

Lemma consistent_delete_task (db : Db.Database) (user_id : Z) (task_id : string) :
  consistent db → consistent (Db.delete_task db user_id task_id).2.
Proof.
  intros []. constructor; simpl; try done.
  - by apply NoDup_fmap_filter.
  - by apply Forall_filter.
Qed.

Lemma consistent_complete_task (db : Db.Database) (user_id : Z) (task_id : string) :
  consistent db → consistent (Db.complete_task db user_id task_id).2.
Proof.
  intros []. constructor; simpl; try done.
  - by rewrite fmap_if_key.
  - apply Forall_fmap. eapply Forall_impl; [done |].
    intros r Hr. simpl. by destruct (_ && _).
Qed.

Lemma consistent_complete_reminder
    (db : Db.Database) (user_id : Z) (reminder_id : string) :
  consistent db → consistent (Db.complete_reminder db user_id reminder_id).2.
Proof.
  intros []. constructor; simpl; try done.
  - by rewrite fmap_if_key.
  - apply Forall_fmap. eapply Forall_impl; [done |].
    intros r Hr. simpl. by destruct (_ && _).
Qed.

Lemma known_users_reset (db : Db.Database) (user_id other : Z) :
  other ∈ known_users db → other ≠ user_id →
  other ∈ known_users (Db.reset_user db user_id).2.
Proof.
  intros (row & -> & Hrow)%list_elem_of_fmap Hne.
  apply list_elem_of_fmap. exists row. split; [done |]. simpl.
  apply elem_of_filter. split; [done |].
  apply negb_true_iff. by apply Z.eqb_neq.
Qed.

Lemma consistent_reset_user (db : Db.Database) (user_id : Z) :
  consistent db → consistent (Db.reset_user db user_id).2.
Proof.
  intros Hdb. pose proof (known_users_reset db user_id) as Hkeep. destruct Hdb.
  assert (Howned : ∀ (R : Type) (owner : R → Z) (rows : list R),
            Forall (λ r, owner r ∈ known_users db) rows →
            Forall (λ r, owner r ∈ known_users (Db.reset_user db user_id).2)
                   (List.filter (λ r, negb (owner r =? user_id)) rows)).
  { intros R owner rows Hall. apply Forall_forall. intros r [Hr Hne]%elem_of_filter.
    apply Hkeep; [by apply (proj1 (Forall_forall _ _) Hall) |].
    apply negb_true_iff in Hne. by apply Z.eqb_neq. }
  constructor; try (by apply Howned); simpl.
  - by apply NoDup_fmap_filter.
  - by apply NoDup_fmap_filter.
  - by apply NoDup_fmap_filter.
  - by apply NoDup_fmap_filter.
  - by apply NoDup_fmap_filter.
  - by rewrite no_patterns0.
Qed.

(** Whatever methods are called on new tables, and whatever identifiers
    and timestamps they draw, primary keys stay unique and every note,
    task, reminder and fact belongs to a user that has a row in [users]:
    the code keeps the reference to [users] that the schema declares. *)
Theorem reachable_database_consistent (db : Db.Database) :
  db_reachable db → consistent db.
Proof.
  induction 1.
  - apply consistent_empty.
  - by apply consistent_ensure.
  - by apply consistent_set_name.
  - by apply consistent_save_message.
  - by apply consistent_add_note.
  - by apply consistent_delete_note.
  - by apply consistent_add_task.
  - by apply consistent_complete_task.
  - by apply consistent_delete_task.
  - by apply consistent_add_reminder.
  - by apply consistent_complete_reminder.
  - by apply consistent_save_fact.
  - by apply consistent_reset_user.
Qed.

Lemma reachable_database_consistent_witness : consistent sample_db.
Proof.
  apply reachable_database_consistent. unfold sample_db. repeat constructor.
Defined.

(** ** Names *)

Lemma with_users_same (db : Db.Database) : Db.with_users db (Db.users db) = db.
Proof. by destruct db. Qed.

Lemma with_tasks_same (db : Db.Database) : Db.with_tasks db (Db.tasks db) = db.
Proof. by destruct db. Qed.

Lemma with_notes_same (db : Db.Database) : Db.with_notes db (Db.notes db) = db.
Proof. by destruct db. Qed.

Lemma no_user_rows (db : Db.Database) (user_id : Z) :
  user_id ∉ known_users db →
  List.filter (λ r, Db.users_user_id r =? user_id) (Db.users db) = [].
Proof.
  intros Hunknown. apply filter_nil_iff, Forall_forall. intros r Hr.
  apply Z.eqb_neq. intros Heq. apply Hunknown.
  apply list_elem_of_fmap. by exists r.
Qed.

Lemma get_name_set_name (db : Db.Database) (user_id other : Z) (name : string) :
  Db.get_name (Db.set_name db user_id name).2 other
  = if decide (other = user_id ∧ user_id ∈ known_users db) then name
    else Db.get_name db other.
Proof.
  unfold Db.get_name, Db.user_row. simpl.
  rewrite (find_fmap_if (λ r, Db.users_user_id r =? user_id) (Db.rename name)) by done.
  destruct (List.find _ (Db.users db)) as [row |] eqn:Hrow; simpl.
  - pose proof (user_row_id db other row Hrow) as Hid. rewrite Hid.
    destruct (Z.eqb_spec other user_id) as [-> | Hne].
    + rewrite decide_True; [done |]. split; [done |].
      apply user_row_known. by eexists.
    + rewrite decide_False; [done |]. by intros [? _].
  - rewrite decide_False; [done |]. intros [-> Hknown].
    apply user_row_known in Hknown. unfold Db.user_row in Hknown.
    rewrite Hrow in Hknown. by destruct Hknown.
Qed.

Lemma set_name_cases (db : Db.Database) (user_id : Z) (name : string) :
  (Db.set_name db user_id name).1 = true
  ∧ (user_id ∈ known_users db →
       Db.get_name (Db.set_name db user_id name).2 user_id = name)
  ∧ (user_id ∉ known_users db →
       (Db.set_name db user_id name).2 = db
       ∧ Db.get_name (Db.set_name db user_id name).2 user_id = "friend")
  ∧ (∀ other, other ≠ user_id →
       Db.get_name (Db.set_name db user_id name).2 other = Db.get_name db other).
Proof.
  split; [done |]. split; [| split].
  - intros Hknown. rewrite get_name_set_name. by rewrite decide_True.
  - intros Hunknown.
    assert (Hsame : (Db.set_name db user_id name).2 = db).
    { simpl. rewrite fmap_if_none by by apply no_user_rows.
      apply with_users_same. }
    split; [done |]. rewrite Hsame. unfold Db.get_name.
    destruct (Db.user_row db user_id) as [row |] eqn:Hrow; [| done].
    exfalso. apply Hunknown, user_row_known. by eexists.
  - intros other Hne. rewrite get_name_set_name.
    rewrite decide_False; [done |]. by intros [? _].
Qed.

(** [set_name] always reports success.  For a user that has a row the
    name is stored and [get_name] returns it; for a user without a row
    nothing is stored, the database is unchanged and [get_name] still
    returns "friend".  The names of other users are never changed. *)
Theorem set_name_then_get_name (db : Db.Database) (user_id : Z) (name : string) :
  (Db.set_name db user_id name).1 = true
  ∧ (user_id ∈ known_users db →
       Db.get_name (Db.set_name db user_id name).2 user_id = name)
  ∧ (user_id ∉ known_users db →
       (Db.set_name db user_id name).2 = db
       ∧ Db.get_name (Db.set_name db user_id name).2 user_id = "friend")
  ∧ (∀ other, other ≠ user_id →
       Db.get_name (Db.set_name db user_id name).2 other = Db.get_name db other).
Proof. apply set_name_cases. Qed.

Lemma set_name_then_get_name_witness :
  Db.get_name (Db.set_name sample_db 7 "Ana").2 7 = "Ana"
  ∧ Db.get_name (Db.set_name sample_db 9 "Bo").2 9 = "friend".
Proof.
  destruct (set_name_then_get_name sample_db 7 "Ana") as (_ & Hknown & _).
  destruct (set_name_then_get_name sample_db 9 "Bo") as (_ & _ & Hunknown & _).
  split.
  - apply Hknown. apply (bool_decide_unpack _). vm_compute. exact I.
  - apply Hunknown. vm_compute. intros Hin.
    repeat (apply elem_of_cons in Hin as [Hin | Hin]; [discriminate Hin |]).
    by apply elem_of_nil in Hin.
Defined.

(** After [/myname <name>] the bot answers that it will remember the
    name; a following [/myname] without arguments shows that name when the
    user has a row in [users], and still shows "friend", with the state as
    it was before, when the user has none. *)
Theorem myname_command_then_show
    (app : Commands.App) (user_id : Z) (first : string) (more : list string) :
  let name := Commands.str_join " " (first :: more) in
  let told := Commands.myname_command app user_id (first :: more) in
  let shown (current : string) : list string :=
    ["I currently call you: " +:+ current +:+ nl +:+ nl
     +:+ "To change it: /myname <your name>" +:+ nl +:+ "Example: /myname Alex"] in
  told.1 = Ok ["Nice to meet you, " +:+ name +:+ "! 💕" +:+ nl
               +:+ "I'll remember that from now on."]
  ∧ (user_id ∈ known_users (Commands.memory app) →
       (Commands.myname_command told.2 user_id []).1 = Ok (shown name))
  ∧ (user_id ∉ known_users (Commands.memory app) →
       told.2 = app
       ∧ (Commands.myname_command told.2 user_id []).1 = Ok (shown "friend")).
Proof.
  intros name told shown.
  destruct (set_name_cases (Commands.memory app) user_id name)
    as (_ & Hknown & Hunknown & _).
  assert (Htold : told
                  = (Ok ["Nice to meet you, " +:+ name +:+ "! 💕" +:+ nl
                         +:+ "I'll remember that from now on."],
                     Commands.with_memory app
                       (Db.set_name (Commands.memory app) user_id name).2))
    by reflexivity.
  rewrite Htold. cbn [fst snd]. split; [done |]. split.
  - intros Hin. unfold Commands.myname_command, shown.
    cbn [fst Commands.memory Commands.with_memory]. by rewrite (Hknown Hin).
  - intros Hnot. destruct (Hunknown Hnot) as [Hsame Hname].
    rewrite Hsame.
    assert (Happ : Commands.with_memory app (Commands.memory app) = app)
      by by destruct app.
    rewrite Happ. split; [done |].
    unfold Commands.myname_command, shown. cbn [fst].
    by rewrite <- Hname, Hsame.
Qed.

Lemma myname_command_then_show_witness :
  (Commands.myname_command (Commands.myname_command sample_app 9 ["Bo"]).2 9 []).1
  = Ok ["I currently call you: friend" +:+ nl +:+ nl
        +:+ "To change it: /myname <your name>" +:+ nl +:+ "Example: /myname Alex"].
Proof.
  destruct (myname_command_then_show sample_app 9 "Bo" []) as (_ & _ & Hunknown).
  refine (proj2 (Hunknown _)).
  vm_compute. intros Hin.
  repeat (apply elem_of_cons in Hin as [Hin | Hin]; [discriminate Hin |]).
  by apply elem_of_nil in Hin.
Defined.

(** ** Queries *)

Section Queries.

Context {E : Db.SqlEngine}.
Hypothesis Hlawful : Db.lawful.

Lemma elem_of_order_by {R : Type} (before : R → R → bool) (rows : list R) (x : R) :
  x ∈ Db.order_by before rows ↔ x ∈ rows.
Proof. by rewrite (Hlawful R before rows). Qed.

Lemma length_order_by {R : Type} (before : R → R → bool) (rows : list R) :
  length (Db.order_by before rows) = length rows.
Proof. by rewrite (Hlawful R before rows). Qed.

Lemma order_by_nil {R : Type} (before : R → R → bool) : Db.order_by before [] = @nil R.
Proof. apply Permutation_nil_r. apply Hlawful. Qed.

Lemma elem_of_get_tasks (db : Db.Database) (user_id : Z) (flag : bool) (t : Task) :
  t ∈ Db.get_tasks db user_id flag
  ↔ ∃ r, r ∈ Db.tasks db ∧ Db.tasks_user_id r = user_id
         ∧ Db.tasks_completed r = (if flag then 1 else 0) ∧ t = Db.task_of r.
Proof.
  unfold Db.get_tasks. rewrite list_elem_of_fmap. split.
  - intros (r & -> & Hr). apply elem_of_order_by, elem_of_filter in Hr as [Hr Hsel].
    apply andb_true_iff in Hsel as [Hu Hc].
    exists r. by rewrite <- (Z.eqb_eq _ _), <- (Z.eqb_eq (Db.tasks_completed r) _).
  - intros (r & Hr & Hu & Hc & ->). exists r. split; [done |].
    apply elem_of_order_by, elem_of_filter. split; [done |].
    apply andb_true_iff. by rewrite Hu, Hc, !Z.eqb_refl.
Qed.

Lemma elem_of_get_notes (db : Db.Database) (user_id : Z) (n : Db.Note) :
  n ∈ Db.get_notes db user_id None
  ↔ ∃ r, r ∈ Db.notes db ∧ Db.notes_user_id r = user_id ∧ n = Db.note_of r.
Proof.
  unfold Db.get_notes. rewrite list_elem_of_fmap. split.
  - intros (r & -> & Hr). apply elem_of_order_by, elem_of_filter in Hr as [Hr Hu].
    exists r. by rewrite <- (Z.eqb_eq _ _).
  - intros (r & Hr & Hu & ->). exists r. split; [done |].
    apply elem_of_order_by, elem_of_filter. split; [done |].
    by rewrite Hu, Z.eqb_refl.
Qed.

Lemma elem_of_get_reminders (db : Db.Database) (user_id : Z) (m : Db.Reminder) :
  m ∈ Db.get_reminders db user_id
  ↔ ∃ r, r ∈ Db.reminders db ∧ Db.reminders_user_id r = user_id
         ∧ Db.reminders_completed r = 0 ∧ m = Db.reminder_of r.
Proof.
  unfold Db.get_reminders. rewrite list_elem_of_fmap. split.
  - intros (r & -> & Hr). apply elem_of_order_by, elem_of_filter in Hr as [Hr Hsel].
    apply andb_true_iff in Hsel as [Hu Hc].
    exists r. by rewrite <- (Z.eqb_eq _ _), <- (Z.eqb_eq (Db.reminders_completed r) _).
  - intros (r & Hr & Hu & Hc & ->). exists r. split; [done |].
    apply elem_of_order_by, elem_of_filter. split; [done |].
    apply andb_true_iff. by rewrite Hu, Hc, !Z.eqb_refl.
Qed.

End Queries.

Lemma tasks_ensure (db : Db.Database) (user_id : Z) (now : string) :
  Db.tasks (Db._ensure_user_exists db user_id now) = Db.tasks db.
Proof. unfold Db._ensure_user_exists. by destruct (Db.user_row db user_id). Qed.

Lemma notes_ensure (db : Db.Database) (user_id : Z) (now : string) :
  Db.notes (Db._ensure_user_exists db user_id now) = Db.notes db.
Proof. unfold Db._ensure_user_exists. by destruct (Db.user_row db user_id). Qed.

Lemma facts_ensure (db : Db.Database) (user_id : Z) (now : string) :
  Db.facts (Db._ensure_user_exists db user_id now) = Db.facts db.
Proof. unfold Db._ensure_user_exists. by destruct (Db.user_row db user_id). Qed.

Lemma reminders_ensure (db : Db.Database) (user_id : Z) (now : string) :
  Db.reminders (Db._ensure_user_exists db user_id now) = Db.reminders db.
Proof. unfold Db._ensure_user_exists. by destruct (Db.user_row db user_id). Qed.

(** ** Tasks *)

Section Tasks.

Context {E : Db.SqlEngine}.
Hypothesis Hlawful : Db.lawful.

(** A task added under an unused identifier is returned among the
    pending tasks of its user, with its description and due date, priority
    "normal" and not completed; the pending list grows by one, the
    completed list and the lists of other users stay as they were.  Under a
    used identifier the insert raises and the tasks stay as they were. *)
Theorem add_task_then_get_tasks
    (db : Db.Database) (stamp : Db.Stamp) (user_id : Z) (description due_date : string) :
  let added := Db.add_task db stamp user_id description due_date in
  (Db.uuid8 stamp ∉ Db.tasks_task_id <$> Db.tasks db →
     added.1 = Ok (Db.uuid8 stamp)
     ∧ {| task_id := Db.uuid8 stamp; description := description;
          due_date := Some due_date; completed := false; priority := "normal" |}
       ∈ Db.get_tasks added.2 user_id false
     ∧ length (Db.get_tasks added.2 user_id false)
       = S (length (Db.get_tasks db user_id false))
     ∧ Db.get_tasks added.2 user_id true = Db.get_tasks db user_id true
     ∧ ∀ other flag, other ≠ user_id →
         Db.get_tasks added.2 other flag = Db.get_tasks db other flag)
  ∧ (Db.uuid8 stamp ∈ Db.tasks_task_id <$> Db.tasks db →
       added.1 = Raise (Db.IntegrityError "tasks.task_id")
       ∧ Db.tasks added.2 = Db.tasks db).
Proof.
  intros added. subst added. unfold Db.add_task.
  destruct (existsb _ _) eqn:Hid; rewrite tasks_ensure in Hid.
  - apply existsb_eqb_true in Hid. split; [done |].
    intros _. split; [done |]. apply tasks_ensure.
  - apply existsb_eqb_false in Hid. split; [| done]. intros _.
    cbn [fst snd]. split; [done |].
    unfold Db.get_tasks. cbn [Db.tasks Db.with_tasks]. rewrite tasks_ensure.
    rewrite !filter_snoc. cbn [Db.tasks_user_id Db.tasks_completed].
    rewrite Z.eqb_refl. cbn [andb Z.eqb].
    split; [| split; [| split]].
    + apply list_elem_of_fmap.
      exists (Db.mkTaskRow (Db.uuid8 stamp) user_id description due_date 0 "normal"
                (Db.now stamp)).
      split; [reflexivity |]. apply (elem_of_order_by Hlawful).
      apply elem_of_app. right. left.
    + rewrite !length_fmap, !(length_order_by Hlawful), length_app. simpl. lia.
    + by rewrite app_nil_r.
    + intros other flag Hne. apply Z.eqb_neq in Hne. rewrite Z.eqb_sym in Hne.
      rewrite !filter_snoc. cbn [Db.tasks_user_id Db.tasks_completed].
      by rewrite Hne, app_nil_r.
Qed.

End Tasks.

Lemma add_task_then_get_tasks_witness :
  length (@Db.get_tasks sample_engine
            (Db.add_task sample_db (stamp 4) 7 "should water plants" "").2 7 false)
  = S (length (@Db.get_tasks sample_engine sample_db 7 false)).
Proof.
  destruct (@add_task_then_get_tasks sample_engine sample_engine_lawful
              sample_db (stamp 4) 7 "should water plants" "") as [Hfresh _].
  refine (proj1 (proj2 (proj2 (Hfresh _)))).
  vm_compute. intros Hin.
  repeat (apply elem_of_cons in Hin as [Hin | Hin]; [discriminate Hin |]).
  by apply elem_of_nil in Hin.
Defined.

Lemma filter_fmap_fixed {A : Type} (P : A → bool) (g : A → A) (rows : list A) :
  (∀ r, P (g r) = P r) → (∀ r, P r = true → g r = r) →
  List.filter P (g <$> rows) = List.filter P rows.
Proof.
  intros Hsame Hfixed. induction rows as [| r rows IH]; [done |].
  rewrite fmap_cons. cbn [List.filter]. rewrite Hsame, IH.
  destruct (P r) eqn:Hr; [| done]. by rewrite (Hfixed r Hr).
Qed.

Section Complete.

Context {E : Db.SqlEngine}.
Hypothesis Hlawful : Db.lawful.

(** [complete_task] answers [True] exactly when the user owns a task with
    that identifier, whether or not it was already completed.  Afterwards
    no pending task of the user has the identifier and, when the answer is
    [True], a completed one has it; the tasks of other users are as they
    were, so the identifier of somebody else's task completes nothing;
    completing again gives the same answer and the same database; and on
    [False] the database is unchanged. *)
Theorem complete_task_moves_task (db : Db.Database) (user_id : Z) (id : string) :
  let done := Db.complete_task db user_id id in
  (done.1 = true
   ↔ ∃ r, r ∈ Db.tasks db ∧ Db.tasks_task_id r = id ∧ Db.tasks_user_id r = user_id)
  ∧ (∀ t, t ∈ Db.get_tasks done.2 user_id false → task_id t ≠ id)
  ∧ (done.1 = true → ∃ t, t ∈ Db.get_tasks done.2 user_id true ∧ task_id t = id)
  ∧ (∀ other flag, other ≠ user_id →
       Db.get_tasks done.2 other flag = Db.get_tasks db other flag)
  ∧ Db.complete_task done.2 user_id id = done
  ∧ (done.1 = false → done.2 = db).
Proof.
  intros done. subst done. cbn [fst snd Db.complete_task].
  set (selected := λ r, String.eqb (Db.tasks_task_id r) id
                        && (Db.tasks_user_id r =? user_id)).
  set (g := λ r, if selected r then Db.mark_task r else r).
  assert (Hsel : ∀ r, selected r = true
                      ↔ Db.tasks_task_id r = id ∧ Db.tasks_user_id r = user_id).
  { intros r. unfold selected. by rewrite andb_true_iff, String.eqb_eq, Z.eqb_eq. }
  assert (Hg_sel : ∀ r, selected (g r) = selected r).
  { intros r. unfold g. by destruct (selected r) eqn:Hr. }
  assert (Hg_user : ∀ r, Db.tasks_user_id (g r) = Db.tasks_user_id r).
  { intros r. unfold g. by destruct (selected r). }
  assert (Hg_id : ∀ r, Db.tasks_task_id (g r) = Db.tasks_task_id r).
  { intros r. unfold g. by destruct (selected r). }
  assert (Hfound : (0 <? length (List.filter selected (Db.tasks db)))%nat = true
                   ↔ ∃ r, r ∈ Db.tasks db ∧ Db.tasks_task_id r = id
                          ∧ Db.tasks_user_id r = user_id).
  { rewrite Nat.ltb_lt. split.
    - destruct (List.filter selected (Db.tasks db)) as [| r rest] eqn:Hf;
        [simpl; lia |].
      intros _. assert (Hr : r ∈ List.filter selected (Db.tasks db))
        by (rewrite Hf; left).
      apply elem_of_filter in Hr as [Hr Hs]. apply Hsel in Hs. by exists r.
    - intros (r & Hr & Hid & Hu).
      assert (Hin : r ∈ List.filter selected (Db.tasks db)).
      { apply elem_of_filter. split; [done |]. by apply Hsel. }
      destruct (List.filter selected (Db.tasks db)); [by apply elem_of_nil in Hin |].
      simpl. lia. }
  split; [exact Hfound |]. split; [| split; [| split; [| split]]].
  - intros t (r' & Hr' & Hu & Hc & ->)%(elem_of_get_tasks Hlawful).
    cbn [Db.tasks Db.with_tasks] in Hr'.
    apply list_elem_of_fmap in Hr' as (r & -> & Hr).
    change (Db.tasks_task_id (g r) ≠ id).
    rewrite Hg_id. intros Hid.
    assert (Hu' : Db.tasks_user_id r = user_id)
      by (rewrite <- (Hg_user r); exact Hu).
    assert (Hs : selected r = true) by by apply Hsel.
    assert (Hgr : g r = Db.mark_task r) by (unfold g; by rewrite Hs).
    change (Db.tasks_completed (g r) = 0) in Hc. rewrite Hgr in Hc.
    discriminate Hc.
  - intros (r & Hr & Hid & Hu)%Hfound.
    exists (Db.task_of (g r)).
    split; [| change (Db.tasks_task_id (g r) = id); by rewrite Hg_id].
    apply (elem_of_get_tasks Hlawful). exists (g r).
    split; [| split; [by rewrite Hg_user | split; [| done]]].
    + cbn [Db.tasks Db.with_tasks]. apply list_elem_of_fmap. by exists r.
    + unfold g. by rewrite (proj2 (Hsel r) (conj Hid Hu)).
  - intros other flag Hne. unfold Db.get_tasks. cbn [Db.tasks Db.with_tasks].
    f_equal. f_equal.
    assert (Hother : ∀ r, selected r = true → (Db.tasks_user_id r =? other) = false).
    { intros r [_ Hu]%Hsel. rewrite Hu. apply Z.eqb_neq. congruence. }
    apply filter_fmap_fixed; intros r.
    + change ((Db.tasks_user_id (g r) =? other)
              && (Db.tasks_completed (g r) =? (if flag then 1 else 0))
              = (Db.tasks_user_id r =? other)
                && (Db.tasks_completed r =? (if flag then 1 else 0))).
      rewrite Hg_user. destruct (selected r) eqn:Hs.
      * by rewrite (Hother r Hs).
      * unfold g. by rewrite Hs.
    + change ((Db.tasks_user_id r =? other)
              && (Db.tasks_completed r =? (if flag then 1 else 0)) = true
              → g r = r).
      intros [Hu _]%andb_true_iff. destruct (selected r) eqn:Hs.
      * rewrite (Hother r Hs) in Hu. discriminate Hu.
      * unfold g. by rewrite Hs.
  - assert (Hlen : length (List.filter selected (g <$> Db.tasks db))
                   = length (List.filter selected (Db.tasks db))).
    { rewrite filter_fmap_id by done. apply length_fmap. }
    assert (Hgg : ∀ r, g (g r) = g r).
    { intros r. destruct (selected r) eqn:Hs.
      - assert (Hgr : g r = Db.mark_task r) by (unfold g; by rewrite Hs).
        assert (Hs' : selected (Db.mark_task r) = true)
          by (by rewrite <- Hgr, Hg_sel).
        rewrite Hgr. unfold g. by rewrite Hs'.
      - assert (Hgr : g r = r) by (unfold g; by rewrite Hs).
        by rewrite !Hgr. }
    assert (Hmap : g <$> (g <$> Db.tasks db) = g <$> Db.tasks db).
    { rewrite <- list_fmap_compose. apply list_fmap_ext. intros i r _. apply Hgg. }
    change (((0 <? length (List.filter selected (g <$> Db.tasks db)))%nat,
             Db.with_tasks (Db.with_tasks db (g <$> Db.tasks db))
               (g <$> (g <$> Db.tasks db)))
            = ((0 <? length (List.filter selected (Db.tasks db)))%nat,
               Db.with_tasks db (g <$> Db.tasks db))).
    by rewrite Hlen, Hmap.
  - change ((0 <? length (List.filter selected (Db.tasks db)))%nat = false
            → Db.with_tasks db (g <$> Db.tasks db) = db).
    intros Hnone. apply Nat.ltb_ge in Hnone.
    assert (Hnil : List.filter selected (Db.tasks db) = []).
    { destruct (List.filter selected (Db.tasks db)); [done | simpl in Hnone; lia]. }
    unfold g. rewrite (fmap_if_none selected Db.mark_task _ Hnil).
    apply with_tasks_same.
Qed.

End Complete.

Lemma complete_task_moves_task_witness :
  ∃ t, t ∈ @Db.get_tasks sample_engine (Db.complete_task sample_db 7 "00000001").2 7 true
       ∧ task_id t = "00000001".
Proof.
  refine (proj1 (proj2 (proj2 (@complete_task_moves_task sample_engine
            sample_engine_lawful sample_db 7 "00000001"))) _).
  reflexivity.
Defined.

(** ** Notes *)

Lemma filter_filter_same {A : Type} (P Q : A → bool) (rows : list A) :
  (∀ r, P r = true → Q r = true) →
  List.filter P (List.filter Q rows) = List.filter P rows.
Proof.
  intros HPQ. induction rows as [| r rows IH]; [done |].
  cbn [List.filter]. destruct (Q r) eqn:HQ.
  - cbn [List.filter]. by rewrite IH.
  - rewrite IH. destruct (P r) eqn:HP; [| done].
    rewrite (HPQ r HP) in HQ. discriminate HQ.
Qed.

Lemma filter_filter_none {A : Type} (P Q : A → bool) (rows : list A) :
  (∀ r, P r = true → Q r = false) → List.filter P (List.filter Q rows) = [].
Proof.
  intros HPQ. apply filter_nil_iff, Forall_forall.
  intros r [_ HQ]%elem_of_filter.
  destruct (P r) eqn:HP; [| done]. rewrite (HPQ r HP) in HQ. discriminate HQ.
Qed.

Lemma filter_positive {A : Type} (P : A → bool) (rows : list A) :
  (0 <? length (List.filter P rows))%nat = true ↔ ∃ r, r ∈ rows ∧ P r = true.
Proof.
  rewrite Nat.ltb_lt. split.
  - destruct (List.filter P rows) as [| r rest] eqn:Hf; [simpl; lia |].
    intros _. assert (Hr : r ∈ List.filter P rows) by (rewrite Hf; left).
    apply elem_of_filter in Hr. by exists r.
  - intros (r & Hr & HP).
    assert (Hin : r ∈ List.filter P rows) by by apply elem_of_filter.
    destruct (List.filter P rows); [by apply elem_of_nil in Hin | simpl; lia].
Qed.

Lemma filter_negb_none {A : Type} (P : A → bool) (rows : list A) :
  List.filter P rows = [] → List.filter (λ r, negb (P r)) rows = rows.
Proof.
  intros Hnone. apply filter_nil_iff in Hnone. apply filter_all.
  eapply Forall_impl; [done |]. intros r Hr. simpl in Hr. by rewrite Hr.
Qed.

Section Notes.

Context {E : Db.SqlEngine}.
Hypothesis Hlawful : Db.lawful.

(** [delete_note] answers [True] exactly when the user owns a note with
    that identifier.  Afterwards the notes of the user are the earlier
    ones without that identifier, the notes of other users are as they
    were (so somebody else's identifier deletes nothing), and on [False]
    the database is unchanged. *)
Theorem delete_note_removes_note (db : Db.Database) (user_id : Z) (id : string) :
  let deleted := Db.delete_note db user_id id in
  (deleted.1 = true
   ↔ ∃ r, r ∈ Db.notes db ∧ Db.notes_note_id r = id ∧ Db.notes_user_id r = user_id)
  ∧ (∀ n, n ∈ Db.get_notes deleted.2 user_id None
          ↔ n ∈ Db.get_notes db user_id None ∧ Db.note_id n ≠ id)
  ∧ (∀ other, other ≠ user_id →
       Db.get_notes deleted.2 other None = Db.get_notes db other None)
  ∧ (deleted.1 = false → deleted.2 = db).
Proof.
  intros deleted. subst deleted.
  set (selected := λ r, String.eqb (Db.notes_note_id r) id
                        && (Db.notes_user_id r =? user_id)).
  assert (Hsel : ∀ r, selected r = true
                      ↔ Db.notes_note_id r = id ∧ Db.notes_user_id r = user_id).
  { intros r. unfold selected. by rewrite andb_true_iff, String.eqb_eq, Z.eqb_eq. }
  change (Db.delete_note db user_id id)
    with ((0 <? length (List.filter selected (Db.notes db)))%nat,
          Db.with_notes db (List.filter (λ r, negb (selected r)) (Db.notes db))).
  cbn [fst snd]. split; [| split; [| split]].
  - rewrite filter_positive. split.
    + intros (r & Hr & Hs). exists r. split; [done |]. by apply Hsel.
    + intros (r & Hr & Hs). exists r. split; [done |]. by apply Hsel.
  - intros n. rewrite !(elem_of_get_notes Hlawful). cbn [Db.notes Db.with_notes].
    split.
    + intros (r & [Hr Hs]%elem_of_filter & Hu & ->).
      split; [by exists r |]. change (Db.notes_note_id r ≠ id). intros Hid.
      apply negb_true_iff in Hs. by rewrite (proj2 (Hsel r) (conj Hid Hu)) in Hs.
    + intros [(r & Hr & Hu & ->) Hid]. exists r. split; [| done].
      apply elem_of_filter. split; [done |]. apply negb_true_iff.
      destruct (selected r) eqn:Hs; [| done]. apply Hsel in Hs as [Hid' _].
      by destruct Hid.
  - intros other Hne. unfold Db.get_notes. cbn [Db.notes Db.with_notes].
    f_equal. f_equal. apply filter_filter_same.
    intros r Hu. apply Z.eqb_eq in Hu. apply negb_true_iff.
    destruct (selected r) eqn:Hs; [| done]. apply Hsel in Hs as [_ Hu']. congruence.
  - intros Hnone.
    assert (Hnil : List.filter selected (Db.notes db) = []).
    { destruct (List.filter selected (Db.notes db)); [done | discriminate Hnone]. }
    rewrite (filter_negb_none _ _ Hnil). apply with_notes_same.
Qed.

End Notes.

Lemma delete_note_removes_note_witness :
  (Db.delete_note sample_db 8 "00000002").2 = sample_db.
Proof.
  refine (proj2 (proj2 (proj2 (@delete_note_removes_note sample_engine
            sample_engine_lawful sample_db 8 "00000002"))) _).
  reflexivity.
Defined.

(** ** Statistics and the message counter *)



Section Stats.

Context {E : Db.SqlEngine}.
Hypothesis Hlawful : Db.lawful.

(** The counts of [get_stats] are the lengths of what the queries return:
    the notes of the user, the pending tasks and the pending reminders;
    for a user without a row the message count is 0 and the last
    interaction is "Never". *)
Theorem get_stats_counts_rows (db : Db.Database) (user_id : Z) :
  Db.notes_count (Db.get_stats db user_id)
  = Z.of_nat (length (Db.get_notes db user_id None))
  ∧ Db.tasks_count (Db.get_stats db user_id)
    = Z.of_nat (length (Db.get_tasks db user_id false))
  ∧ Db.reminders_count (Db.get_stats db user_id)
    = Z.of_nat (length (Db.get_reminders db user_id))
  ∧ (user_id ∉ known_users db →
       Db.total_messages (Db.get_stats db user_id) = 0
       ∧ Db.last_interaction (Db.get_stats db user_id) = "Never").
Proof.
  unfold Db.get_stats, Db.get_notes, Db.get_tasks, Db.get_reminders.
  cbn [Db.notes_count Db.tasks_count Db.reminders_count Db.total_messages
       Db.last_interaction].
  rewrite !length_fmap, !(length_order_by Hlawful).
  split; [done |]. split; [done |]. split; [done |].
  intros Hunknown.
  destruct (Db.user_row db user_id) as [row |] eqn:Hrow; [| done].
  exfalso. apply Hunknown, user_row_known. by eexists.
Qed.

End Stats.

Lemma get_stats_counts_rows_witness :
  Db.total_messages (Db.get_stats sample_db 9) = 0
  ∧ Db.last_interaction (Db.get_stats sample_db 9) = "Never".
Proof.
  refine (proj2 (proj2 (proj2 (@get_stats_counts_rows sample_engine
            sample_engine_lawful sample_db 9))) _).
  intros Hin. apply (bool_decide_pack _) in Hin. vm_compute in Hin. exact Hin.
Defined.



(** ** Reset *)

Lemma find_filter_same {A : Type} (P Q : A → bool) (rows : list A) :
  (∀ r, P r = true → Q r = true) →
  List.find P (List.filter Q rows) = List.find P rows.
Proof.
  intros HPQ. induction rows as [| r rows IH]; [done |].
  cbn [List.filter List.find]. destruct (Q r) eqn:HQ.
  - cbn [List.find]. by rewrite IH.
  - rewrite IH. destruct (P r) eqn:HP; [| done].
    rewrite (HPQ r HP) in HQ. discriminate HQ.
Qed.

Lemma find_filter_none {A : Type} (P Q : A → bool) (rows : list A) :
  (∀ r, P r = true → Q r = false) → List.find P (List.filter Q rows) = None.
Proof.
  intros HPQ. induction rows as [| r rows IH]; [done |].
  cbn [List.filter]. destruct (Q r) eqn:HQ; [| done].
  cbn [List.find]. destruct (P r) eqn:HP; [| done].
  rewrite (HPQ r HP) in HQ. discriminate HQ.
Qed.

Lemma keep_others_all {A : Type} (owner : A → Z) (user_id : Z) (known : list Z)
    (rows : list A) :
  user_id ∉ known → Forall (λ r, owner r ∈ known) rows →
  List.filter (λ r, negb (owner r =? user_id)) rows = rows.
Proof.
  intros Hunknown Howned. apply filter_all.
  eapply Forall_impl; [done |]. intros r Hr. simpl in Hr.
  apply negb_true_iff, Z.eqb_neq. congruence.
Qed.

Section Reset.

Context {E : Db.SqlEngine}.
Hypothesis Hlawful : Db.lawful.

Lemma reset_user_cases (db : Db.Database) (user_id : Z) :
  let reset := Db.reset_user db user_id in
  (reset.1 = true ↔ user_id ∈ known_users db)
  ∧ Db.get_name reset.2 user_id = "friend"
  ∧ Db.get_stats reset.2 user_id
    = {| Db.total_messages := 0; Db.notes_count := 0; Db.tasks_count := 0;
         Db.reminders_count := 0; Db.last_interaction := "Never" |}
  ∧ Db.get_notes reset.2 user_id None = []
  ∧ (∀ flag, Db.get_tasks reset.2 user_id flag = [])
  ∧ Db.get_reminders reset.2 user_id = []
  ∧ Db.get_facts reset.2 user_id = []
  ∧ (∀ other, other ≠ user_id →
       Db.get_name reset.2 other = Db.get_name db other
       ∧ Db.get_stats reset.2 other = Db.get_stats db other
       ∧ Db.get_notes reset.2 other None = Db.get_notes db other None
       ∧ (∀ flag, Db.get_tasks reset.2 other flag = Db.get_tasks db other flag)
       ∧ Db.get_reminders reset.2 other = Db.get_reminders db other
       ∧ Db.get_facts reset.2 other = Db.get_facts db other)
  ∧ (consistent db → reset.1 = false → reset.2 = db).
Proof.
  intros reset.
  assert (Hgone : ∀ (A : Type) (owner : A → Z) (extra : A → bool) (rows : list A),
            List.filter (λ r, (owner r =? user_id) && extra r)
                        (List.filter (λ r, negb (owner r =? user_id)) rows) = []).
  { intros A owner extra rows. apply filter_filter_none.
    intros r [Hu _]%andb_true_iff. by rewrite Hu. }
  assert (Hgone' : ∀ (A : Type) (owner : A → Z) (rows : list A),
            List.filter (λ r, owner r =? user_id)
                        (List.filter (λ r, negb (owner r =? user_id)) rows) = []).
  { intros A owner rows. apply filter_filter_none. intros r Hu. by rewrite Hu. }
  assert (Hkept : ∀ (A : Type) (owner : A → Z) (extra : A → bool) (rows : list A) other,
            other ≠ user_id →
            List.filter (λ r, (owner r =? other) && extra r)
                        (List.filter (λ r, negb (owner r =? user_id)) rows)
            = List.filter (λ r, (owner r =? other) && extra r) rows).
  { intros A owner extra rows other Hne. apply filter_filter_same.
    intros r [Hu%Z.eqb_eq _]%andb_true_iff. apply negb_true_iff, Z.eqb_neq. congruence. }
  assert (Hkept' : ∀ (A : Type) (owner : A → Z) (rows : list A) other,
            other ≠ user_id →
            List.filter (λ r, owner r =? other)
                        (List.filter (λ r, negb (owner r =? user_id)) rows)
            = List.filter (λ r, owner r =? other) rows).
  { intros A owner rows other Hne. apply filter_filter_same.
    intros r Hu%Z.eqb_eq. apply negb_true_iff, Z.eqb_neq. congruence. }
  assert (Hrow : Db.user_row reset.2 user_id = None).
  { apply find_filter_none. intros r Hu. by rewrite Hu. }
  assert (Hrow' : ∀ other, other ≠ user_id →
            Db.user_row reset.2 other = Db.user_row db other).
  { intros other Hne. apply find_filter_same.
    intros r Hu%Z.eqb_eq. apply negb_true_iff, Z.eqb_neq. congruence. }
  split; [| split; [| split; [| split; [| split; [| split; [| split; [| split]]]]]]].
  - unfold reset. cbn [fst Db.reset_user]. rewrite filter_positive. split.
    + intros (r & Hr & Hu%Z.eqb_eq). apply list_elem_of_fmap. by exists r.
    + intros (r & -> & Hr)%list_elem_of_fmap. exists r. by rewrite Z.eqb_refl.
  - unfold Db.get_name. by rewrite Hrow.
  - unfold Db.get_stats. rewrite Hrow. unfold reset.
    cbn [snd Db.reset_user Db.notes Db.tasks Db.reminders].
    by rewrite Hgone', !Hgone.
  - unfold Db.get_notes, reset. cbn [snd Db.reset_user Db.notes].
    by rewrite Hgone', (order_by_nil Hlawful).
  - intros flag. unfold Db.get_tasks, reset. cbn [snd Db.reset_user Db.tasks].
    by rewrite Hgone, (order_by_nil Hlawful).
  - unfold Db.get_reminders, reset. cbn [snd Db.reset_user Db.reminders].
    by rewrite Hgone, (order_by_nil Hlawful).
  - unfold Db.get_facts, reset. cbn [snd Db.reset_user Db.facts].
    by rewrite Hgone', (order_by_nil Hlawful).
  - intros other Hne. split; [| split; [| split; [| split; [| split]]]].
    + unfold Db.get_name. by rewrite Hrow'.
    + unfold Db.get_stats. rewrite Hrow' by done. unfold reset.
      cbn [snd Db.reset_user Db.notes Db.tasks Db.reminders].
      by rewrite Hkept', !Hkept.
    + unfold Db.get_notes, reset. cbn [snd Db.reset_user Db.notes].
      by rewrite Hkept'.
    + intros flag. unfold Db.get_tasks, reset. cbn [snd Db.reset_user Db.tasks].
      by rewrite Hkept.
    + unfold Db.get_reminders, reset. cbn [snd Db.reset_user Db.reminders].
      by rewrite Hkept.
    + unfold Db.get_facts, reset. cbn [snd Db.reset_user Db.facts].
      by rewrite Hkept'.
  - intros Hdb Hnone. unfold reset in *. cbn [fst snd Db.reset_user] in *.
    assert (Hunknown : user_id ∉ known_users db).
    { intros (r & Heq & Hr)%list_elem_of_fmap.
      assert (Hfound : (0 <? length (List.filter
                (λ r', (Db.users_user_id r' =? user_id)%Z) (Db.users db)))%nat = true).
      { apply (proj2 (filter_positive _ _)). exists r. split; [done |].
        rewrite Heq. apply Z.eqb_refl. }
      rewrite Hfound in Hnone. discriminate Hnone. }
    destruct Hdb. rewrite no_patterns0.
    rewrite (keep_others_all _ _ _ _ Hunknown notes_owned0).
    rewrite (keep_others_all _ _ _ _ Hunknown tasks_owned0).
    rewrite (keep_others_all _ _ _ _ Hunknown reminders_owned0).
    rewrite (keep_others_all _ _ _ _ Hunknown facts_owned0).
    rewrite (filter_negb_none _ _ (no_user_rows db user_id Hunknown)).
    destruct db. simpl in *. by rewrite no_patterns0.
Qed.

(** [reset_user] answers [True] exactly when the user has a row in
    [users].  Afterwards the user is unknown again: the name is "friend",
    the statistics are zero and "Never", and no note, task, reminder or
    fact of the user is left; names, statistics and rows of every other
    user are as they were.  On a consistent database the answer [False]
    means that nothing was deleted. *)
Theorem reset_user_forgets_user (db : Db.Database) (user_id : Z) :
  let reset := Db.reset_user db user_id in
  (reset.1 = true ↔ user_id ∈ known_users db)
  ∧ Db.get_name reset.2 user_id = "friend"
  ∧ Db.get_stats reset.2 user_id
    = {| Db.total_messages := 0; Db.notes_count := 0; Db.tasks_count := 0;
         Db.reminders_count := 0; Db.last_interaction := "Never" |}
  ∧ Db.get_notes reset.2 user_id None = []
  ∧ (∀ flag, Db.get_tasks reset.2 user_id flag = [])
  ∧ Db.get_reminders reset.2 user_id = []
  ∧ Db.get_facts reset.2 user_id = []
  ∧ (∀ other, other ≠ user_id →
       Db.get_name reset.2 other = Db.get_name db other
       ∧ Db.get_stats reset.2 other = Db.get_stats db other
       ∧ Db.get_notes reset.2 other None = Db.get_notes db other None
       ∧ (∀ flag, Db.get_tasks reset.2 other flag = Db.get_tasks db other flag)
       ∧ Db.get_reminders reset.2 other = Db.get_reminders db other
       ∧ Db.get_facts reset.2 other = Db.get_facts db other)
  ∧ (consistent db → reset.1 = false → reset.2 = db).
Proof. apply reset_user_cases. Qed.

End Reset.

Lemma reset_user_forgets_user_witness :
  (Db.reset_user sample_db 9).2 = sample_db
  ∧ @Db.get_tasks sample_engine (Db.reset_user sample_db 7).2 8 false
    = @Db.get_tasks sample_engine sample_db 8 false.
Proof.
  destruct (@reset_user_forgets_user sample_engine sample_engine_lawful sample_db 9)
    as (_ & _ & _ & _ & _ & _ & _ & _ & Hsame).
  destruct (@reset_user_forgets_user sample_engine sample_engine_lawful sample_db 7)
    as (_ & _ & _ & _ & _ & _ & _ & Hother & _).
  split.
  - apply Hsame; [| reflexivity].
    unfold sample_db.
    apply consistent_add_task, consistent_add_note, consistent_add_task,
      consistent_empty.
  - apply (Hother 8); discriminate.
Defined.

(** ** The reset command *)

Lemma reset_user_found (db : Db.Database) (user_id : Z) :
  (Db.reset_user db user_id).1 = true ↔ user_id ∈ known_users db.
Proof.
  cbn [fst Db.reset_user]. rewrite filter_positive. split.
  - intros (r & Hr & Hu%Z.eqb_eq). apply list_elem_of_fmap. by exists r.
  - intros (r & -> & Hr)%list_elem_of_fmap. exists r. by rewrite Z.eqb_refl.
Qed.

Lemma reset_user_unknown (db : Db.Database) (user_id : Z) :
  consistent db → user_id ∉ known_users db → (Db.reset_user db user_id).2 = db.
Proof.
  intros Hdb Hunknown. cbn [snd Db.reset_user]. destruct Hdb.
  rewrite no_patterns0.
  rewrite (keep_others_all _ _ _ _ Hunknown notes_owned0).
  rewrite (keep_others_all _ _ _ _ Hunknown tasks_owned0).
  rewrite (keep_others_all _ _ _ _ Hunknown reminders_owned0).
  rewrite (keep_others_all _ _ _ _ Hunknown facts_owned0).
  rewrite (filter_negb_none _ _ (no_user_rows db user_id Hunknown)).
  destruct db. simpl in *. by rewrite no_patterns0.
Qed.

(** [/confirm_reset] of a user with a row in [users] deletes the rows of
    the user and empties the user's conversation; of a user without a row
    it answers that there is nothing to reset and leaves the conversation
    of the user as it is, and the whole state when the database is
    consistent.  The conversations of other users are never touched. *)
Theorem confirm_reset_by_user_row (app : Commands.App) (user_id : Z) :
  let out := Commands.confirm_reset app user_id in
  (user_id ∈ known_users (Commands.memory app) →
     out.1 = Ok [Commands.reset_done]
     ∧ Commands.memory out.2 = (Db.reset_user (Commands.memory app) user_id).2
     ∧ get_conversation (Commands.ollama out.2) user_id = [])
  ∧ (user_id ∉ known_users (Commands.memory app) →
       out.1 = Ok ["Nothing to reset - we just met!"]
       ∧ Commands.ollama out.2 = Commands.ollama app
       ∧ (consistent (Commands.memory app) → out.2 = app))
  ∧ (∀ other, other ≠ user_id →
       get_conversation (Commands.ollama out.2) other
       = get_conversation (Commands.ollama app) other).
Proof.
  intros out.
  assert (Hout : out
                 = if (Db.reset_user (Commands.memory app) user_id).1
                   then (Ok [Commands.reset_done],
                         {| Commands.memory :=
                              (Db.reset_user (Commands.memory app) user_id).2;
                            Commands.ollama :=
                              clear_conversation (Commands.ollama app) user_id |})
                   else (Ok ["Nothing to reset - we just met!"],
                         Commands.with_memory app
                           (Db.reset_user (Commands.memory app) user_id).2))
    by reflexivity.
  pose proof (reset_user_found (Commands.memory app) user_id) as Hfound.
  rewrite Hout. split; [| split].
  - intros Hknown. rewrite (proj2 Hfound Hknown). cbn [fst snd].
    split; [done |]. split; [done |].
    cbn [Commands.ollama]. rewrite get_clear_conversation. by rewrite decide_True.
  - intros Hunknown.
    destruct (Db.reset_user (Commands.memory app) user_id).1 eqn:Hreset.
    { exfalso. by apply Hunknown, Hfound. }
    cbn [fst snd]. split; [done |]. split; [done |].
    intros Hdb. rewrite (reset_user_unknown _ _ Hdb Hunknown). by destruct app.
  - intros other Hne.
    destruct (Db.reset_user (Commands.memory app) user_id).1; cbn [snd]; [| done].
    cbn [Commands.ollama]. rewrite get_clear_conversation. by rewrite decide_False.
Qed.

Lemma confirm_reset_by_user_row_witness :
  get_conversation (Commands.ollama (Commands.confirm_reset sample_app 7).2) 7 = []
  ∧ (Commands.confirm_reset sample_app 9).1 = Ok ["Nothing to reset - we just met!"].
Proof.
  destruct (confirm_reset_by_user_row sample_app 7) as (Hknown & _ & _).
  destruct (confirm_reset_by_user_row sample_app 9) as (_ & Hunknown & _).
  split.
  - refine (proj2 (proj2 (Hknown _))).
    apply (bool_decide_unpack _). vm_compute. exact I.
  - refine (proj1 (Hunknown _)).
    intros Hin. apply (bool_decide_pack _) in Hin. vm_compute in Hin. exact Hin.
Defined.

(** ** The save and remind commands *)

Lemma existsb_fresh {A : Type} (key : A → string) (id : string) (rows : list A) :
  id ∉ key <$> rows → existsb (λ r, String.eqb (key r) id) rows = false.
Proof.
  intros Hfresh. destruct (existsb _ rows) eqn:Hid; [| done].
  by apply existsb_eqb_true in Hid.
Qed.

Lemma save_fact_fresh (db : Db.Database) (s : Db.Stamp) (user_id : Z) (fact : string) :
  Db.uuid8 s ∉ Db.facts_fact_id <$> Db.facts db →
  Db.save_fact db s user_id fact
  = (Ok (Db.uuid8 s),
     Db.with_facts (Db._ensure_user_exists db user_id (Db.user_now s))
       (Db.facts db ++ [Db.mkFactRow (Db.uuid8 s) user_id fact (Db.now s)])).
Proof.
  intros Hfresh. unfold Db.save_fact.
  by rewrite facts_ensure, (existsb_fresh _ _ _ Hfresh).
Qed.

Lemma add_note_fresh (db : Db.Database) (s : Db.Stamp) (user_id : Z) (content : string)
    (tags : option (list string)) :
  Db.uuid8 s ∉ Db.notes_note_id <$> Db.notes db →
  Db.add_note db s user_id content tags
  = (Ok (Db.uuid8 s),
     Db.with_notes (Db._ensure_user_exists db user_id (Db.user_now s))
       (Db.notes db ++ [Db.mkNoteRow (Db.uuid8 s) user_id content (default [] tags)
                                     (Db.now s)])).
Proof.
  intros Hfresh. unfold Db.add_note.
  by rewrite notes_ensure, (existsb_fresh _ _ _ Hfresh).
Qed.

Lemma add_task_fresh (db : Db.Database) (s : Db.Stamp) (user_id : Z)
    (description due_date : string) :
  Db.uuid8 s ∉ Db.tasks_task_id <$> Db.tasks db →
  Db.add_task db s user_id description due_date
  = (Ok (Db.uuid8 s),
     Db.with_tasks (Db._ensure_user_exists db user_id (Db.user_now s))
       (Db.tasks db ++ [Db.mkTaskRow (Db.uuid8 s) user_id description due_date 0
                                     "normal" (Db.now s)])).
Proof.
  intros Hfresh. unfold Db.add_task.
  by rewrite tasks_ensure, (existsb_fresh _ _ _ Hfresh).
Qed.

Lemma add_reminder_fresh (db : Db.Database) (s : Db.Stamp) (user_id : Z)
    (message remind_at : string) :
  Db.uuid8 s ∉ Db.reminders_reminder_id <$> Db.reminders db →
  Db.add_reminder db s user_id message remind_at
  = (Ok (Db.uuid8 s),
     Db.with_reminders (Db._ensure_user_exists db user_id (Db.user_now s))
       (Db.reminders db ++ [Db.mkReminderRow (Db.uuid8 s) user_id message remind_at 0
                                             (Db.now s)])).
Proof.
  intros Hfresh. unfold Db.add_reminder.
  by rewrite reminders_ensure, (existsb_fresh _ _ _ Hfresh).
Qed.

Ltac read_tables :=
  repeat (rewrite ?facts_ensure, ?notes_ensure, ?tasks_ensure, ?reminders_ensure;
          progress cbn [Db.facts Db.notes Db.tasks Db.reminders Db.with_facts
                        Db.with_notes Db.with_tasks Db.with_reminders
                        Db.with_users]);
  rewrite ?facts_ensure, ?notes_ensure, ?tasks_ensure, ?reminders_ensure.

(** [/save] stores one kind of record, chosen by the words that occur in
    the lower-cased text, date words first: with "birthday", "born" or
    "date" a fact and a note tagged "personal", and no task; otherwise with
    "task", "todo", "need to" or "should" a task, and no note or fact;
    otherwise a note without tags.  Without arguments nothing is stored. *)
Theorem save_command_stores_one_kind
    (lower : string → string) (app : Commands.App) (user_id : Z)
    (word : string) (more : list string) (first second : Db.Stamp) :
  let db := Commands.memory app in
  let content := Commands.str_join " " (word :: more) in
  let out := Commands.save_command lower app user_id (word :: more) first second in
  let dated := Commands.any_in ["birthday"; "born"; "date"] (lower content) in
  let todo := Commands.any_in ["task"; "todo"; "need to"; "should"] (lower content) in
  fresh db first → fresh db second →
  Commands.save_command lower app user_id [] first second
  = (Ok [Commands.save_usage], app)
  ∧ (dated = true →
       out.1 = Ok ["Got it! I'll remember that. 📝✨" +:+ nl
                   +:+ "(Saved as note #" +:+ Db.uuid8 second +:+ ")"]
       ∧ Db.facts (Commands.memory out.2)
         = Db.facts db ++ [Db.mkFactRow (Db.uuid8 first) user_id content (Db.now first)]
       ∧ Db.notes (Commands.memory out.2)
         = Db.notes db ++ [Db.mkNoteRow (Db.uuid8 second) user_id content ["personal"]
                                        (Db.now second)]
       ∧ Db.tasks (Commands.memory out.2) = Db.tasks db)
  ∧ (dated = false → todo = true →
       out.1 = Ok ["Added to your tasks! ✅" +:+ nl
                   +:+ "Task #" +:+ Db.uuid8 first +:+ ": " +:+ content]
       ∧ Db.tasks (Commands.memory out.2)
         = Db.tasks db ++ [Db.mkTaskRow (Db.uuid8 first) user_id content "" 0 "normal"
                                        (Db.now first)]
       ∧ Db.notes (Commands.memory out.2) = Db.notes db
       ∧ Db.facts (Commands.memory out.2) = Db.facts db)
  ∧ (dated = false → todo = false →
       out.1 = Ok ["Saved! I'll remember that. 📝" +:+ nl
                   +:+ "Note #" +:+ Db.uuid8 first +:+ ": " +:+ content]
       ∧ Db.notes (Commands.memory out.2)
         = Db.notes db ++ [Db.mkNoteRow (Db.uuid8 first) user_id content []
                                        (Db.now first)]
       ∧ Db.tasks (Commands.memory out.2) = Db.tasks db
       ∧ Db.facts (Commands.memory out.2) = Db.facts db).
Proof.
  intros db content out dated todo (Hn1 & Ht1 & _ & Hf1) (Hn2 & _ & _ & _).
  split; [reflexivity |].
  assert (Hout : out
    = if dated then
        match Db.save_fact db first user_id content with
        | (Raise e, db1) => (Raise e, Commands.with_memory app db1)
        | (Ok _, db1) =>
            match Db.add_note db1 second user_id content (Some ["personal"]) with
            | (Raise e, db2) => (Raise e, Commands.with_memory app db2)
            | (Ok note_id, db2) =>
                (Ok ["Got it! I'll remember that. 📝✨" +:+ nl
                     +:+ "(Saved as note #" +:+ note_id +:+ ")"],
                 Commands.with_memory app db2)
            end
        end
      else if todo then
        match Db.add_task db first user_id content "" with
        | (Raise e, db1) => (Raise e, Commands.with_memory app db1)
        | (Ok task_id, db1) =>
            (Ok ["Added to your tasks! ✅" +:+ nl
                 +:+ "Task #" +:+ task_id +:+ ": " +:+ content],
             Commands.with_memory app db1)
        end
      else
        match Db.add_note db first user_id content None with
        | (Raise e, db1) => (Raise e, Commands.with_memory app db1)
        | (Ok note_id, db1) =>
            (Ok ["Saved! I'll remember that. 📝" +:+ nl
                 +:+ "Note #" +:+ note_id +:+ ": " +:+ content],
             Commands.with_memory app db1)
        end) by reflexivity.
  rewrite Hout. split; [| split].
  - intros ->. rewrite (save_fact_fresh _ _ _ _ Hf1).
    rewrite add_note_fresh by (cbn [Db.notes Db.with_facts]; by rewrite notes_ensure).
    cbn [fst snd Commands.memory Commands.with_memory]. by read_tables.
  - intros -> ->. rewrite (add_task_fresh _ _ _ _ _ Ht1).
    cbn [fst snd Commands.memory Commands.with_memory]. by read_tables.
  - intros -> ->. rewrite (add_note_fresh _ _ _ _ _ Hn1).
    cbn [fst snd Commands.memory Commands.with_memory]. by read_tables.
Qed.

Lemma sample_fresh (n : nat) :
  bool_decide (Db.uuid8 (stamp n) ∉ ["00000001"; "00000002"; "00000003"]) = true →
  fresh sample_db (stamp n).
Proof.
  intros Hn%bool_decide_eq_true. unfold fresh.
  repeat split; intros Hin; apply Hn;
    apply list_elem_of_fmap in Hin as (r & -> & Hr); vm_compute in Hr;
    repeat (apply elem_of_cons in Hr as [-> | Hr];
            [apply (bool_decide_unpack _); vm_compute; exact I |]);
    by apply elem_of_nil in Hr.
Qed.

(** "update" contains "date": the text is stored as a fact and a personal
    note although it also contains "need to". *)
Lemma save_command_stores_one_kind_witness :
  Db.tasks (Commands.memory
              (Commands.save_command ascii_lower sample_app 7
                 ["I"; "need"; "to"; "update"; "my"; "passport"] (stamp 5) (stamp 6)).2)
  = Db.tasks sample_db.
Proof.
  destruct (save_command_stores_one_kind ascii_lower sample_app 7 "I"
              ["need"; "to"; "update"; "my"; "passport"] (stamp 5) (stamp 6)
              (sample_fresh 5 eq_refl) (sample_fresh 6 eq_refl))
    as (_ & Hdated & _).
  exact (proj2 (proj2 (proj2 (Hdated eq_refl)))).
Defined.

Lemma string_app_assoc (a b c : string) : (a +:+ b) +:+ c = a +:+ b +:+ c.
Proof.
  induction a as [| x a IH]; [reflexivity |].
  change (String x ((a +:+ b) +:+ c) = String x (a +:+ b +:+ c)). by rewrite IH.
Qed.

Lemma str_join_snoc (sep word last_word : string) (words : list string) :
  Commands.str_join sep ((word :: words) ++ [last_word])
  = Commands.str_join sep (word :: words) +:+ sep +:+ last_word.
Proof.
  revert word. induction words as [| w words IH]; intros word; [reflexivity |].
  change (word +:+ sep +:+ Commands.str_join sep ((w :: words) ++ [last_word])
          = (word +:+ sep +:+ Commands.str_join sep (w :: words))
            +:+ sep +:+ last_word).
  by rewrite IH, !string_app_assoc.
Qed.

(** [/remind] with at least two words takes the last word, and nothing
    more, as the time and the words before it, joined by spaces, as the
    message, so that message, a space and the time give back the text;
    under an unused identifier it stores that reminder, not completed, and
    reports the identifier.  With fewer than two words nothing is stored. *)
Theorem remind_command_takes_last_word
    (app : Commands.App) (user_id : Z) (word time_str : string) (words : list string)
    (s : Db.Stamp) :
  let db := Commands.memory app in
  let args := (word :: words) ++ [time_str] in
  let message := Commands.str_join " " (word :: words) in
  let out := Commands.remind_command app user_id args s in
  fresh db s →
  out.1 = Ok ["Reminder set! ⏰" +:+ nl
              +:+ "I'll remind you: '" +:+ message +:+ "'" +:+ nl
              +:+ "When: " +:+ time_str +:+ nl +:+ nl
              +:+ "Reminder ID: " +:+ Db.uuid8 s]
  ∧ Db.reminders (Commands.memory out.2)
    = Db.reminders db
      ++ [Db.mkReminderRow (Db.uuid8 s) user_id message time_str 0 (Db.now s)]
  ∧ message +:+ " " +:+ time_str = Commands.str_join " " args
  ∧ Commands.remind_command app user_id [] s = (Ok [Commands.remind_usage], app)
  ∧ Commands.remind_command app user_id [word] s = (Ok [Commands.remind_usage], app).
Proof.
  intros db args message out (_ & _ & Hfresh & _).
  assert (Hlast : last args = Some time_str) by apply last_snoc.
  assert (Htake : take (length args - 1) args = word :: words).
  { unfold args.
    replace (length ((word :: words) ++ [time_str]) - 1)%nat
      with (length (word :: words)) by (rewrite length_app; simpl; lia).
    apply take_app_length. }
  assert (Hlong : (length args <? 2)%nat = false).
  { apply Nat.ltb_ge. unfold args. rewrite length_app. simpl. lia. }
  assert (Hout : out
    = match Db.add_reminder db s user_id message time_str with
      | (Raise e, db1) => (Raise e, Commands.with_memory app db1)
      | (Ok reminder_id, db1) =>
          (Ok ["Reminder set! ⏰" +:+ nl
               +:+ "I'll remind you: '" +:+ message +:+ "'" +:+ nl
               +:+ "When: " +:+ time_str +:+ nl +:+ nl
               +:+ "Reminder ID: " +:+ reminder_id],
           Commands.with_memory app db1)
      end).
  { unfold out, Commands.remind_command. rewrite Hlong, Hlast, Htake. reflexivity. }
  rewrite Hout, (add_reminder_fresh _ _ _ _ _ Hfresh).
  cbn [fst snd Commands.memory Commands.with_memory].
  split; [done |]. split; [by read_tables |].
  split; [symmetry; apply str_join_snoc | by split].
Qed.

Lemma remind_command_takes_last_word_witness :
  Commands.str_join " " ["Take"; "medicine"; "in"; "2"] +:+ " " +:+ "hours"
  = Commands.str_join " " ["Take"; "medicine"; "in"; "2"; "hours"].
Proof.
  exact (proj1 (proj2 (proj2 (remind_command_takes_last_word sample_app 7
           "Take" "hours" ["medicine"; "in"; "2"] (stamp 5)
           (sample_fresh 5 eq_refl))))).
Defined.
